(** * countries-api: the Country service over a Prisma store

    A shallow embedding of [src/services/countries.service.ts].

    The service class [CountryService] holds one dependency, the Prisma
    client [repo], and every method is an [async] function.  An [async]
    computation is embedded as a function from the store to the store after
    the call together with the way the promise settled (fulfilled with a
    value, or rejected with the thrown value).  [await] is the bind of that
    state-and-exception monad, [try { } catch (err) { }] is [try_catch].

    The file has three layers:
    - the thrown values, promises and the interface of the Prisma client the
      service calls (a type class, as [repo] is a constructor argument);
    - the service methods, written once over any client;
    - a model of the store behind the client (tables as lists, the unique
      constraints and the error codes of the Prisma error reference), the
      instance the state-dependent properties are proved on. *)

From Stdlib Require Import ZArith List String Ascii Bool Lia DecimalString.
From Stdlib Require Import Permutation.
Import ListNotations.
Open Scope Z_scope.

(** ** Entities *)

(** Modelled from the spec: the type [Country] is generated by Prisma from
    a schema that is not among the sources.  Section 3 gives it a
    system-assigned identifier [id], the attributes [name] and
    [abbreviation], provider-specific descriptive fields (kept here as one
    opaque column, no method of the service looks inside them) and the
    soft-delete flag [deleted], false by default. *)
Record Country : Type := {
  id : Z;
  name : string;
  abbreviation : string;
  details : string;
  deleted : bool
}.

(** Modelled from the spec: [Visit], a dependent record that refers to a
    Country by [countryId] and has a [deleted] flag of its own (section 3);
    its other columns are kept as one opaque column. *)
Record Visit : Type := {
  visit_id : Z;
  countryId : Z;
  visit_details : string;
  visit_deleted : bool
}.

(** Modelled from the spec: [CreateCountryDto] of [dtos/createCountry.dto],
    what [sanitizeCountryAPI] produces and what [createCountry] and
    [upsertCountry] receive: the attributes of a Country that a caller
    supplies.  It carries no [id] and no [deleted] field (section 9: an
    upsert does not reset the flag). *)
Record CreateCountryDto : Type := {
  dto_name : string;
  dto_abbreviation : string;
  dto_details : string
}.

(** Modelled from the spec: [UpdateCountryDto] of [dtos/updateCountry.dto],
    the payload of a partial field update (section 4.2): the same fields,
    each optional. *)
Record UpdateCountryDto : Type := {
  upd_name : option string;
  upd_abbreviation : option string;
  upd_details : option string
}.

(** ** Thrown values *)

(** Everything the service or one of its collaborators can throw.  The two
    domain errors come from [utils/handleError]; a
    [Prisma.PrismaClientKnownRequestError] carries the [code] the catch
    blocks inspect; [OtherError] stands for any other thrown value (an
    unknown request error, a lost connection, a failure of the external
    adapter). *)
Inductive Exn : Type :=
| NotFoundError (message : string)
| AlreadyExistsError (message : string)
| PrismaClientKnownRequestError (code : string)
| OtherError (message : string).

(** ** Promises *)

Inductive Settled (A : Type) : Type :=
| Fulfilled (a : A)
| Rejected (e : Exn).
Arguments Fulfilled {A} a.
Arguments Rejected {A} e.

Definition Promise (DB A : Type) : Type := DB -> DB * Settled A.

Definition ret {DB A : Type} (a : A) : Promise DB A :=
  fun db => (db, Fulfilled a).

Definition throw {DB A : Type} (e : Exn) : Promise DB A :=
  fun db => (db, Rejected e).

(** [await m] followed by the rest of the function body. *)
Definition bind {DB A B : Type} (m : Promise DB A) (k : A -> Promise DB B)
  : Promise DB B :=
  fun db =>
    match m db with
    | (db', Fulfilled a) => k a db'
    | (db', Rejected e) => (db', Rejected e)
    end.

(** [try { m } catch (err) { handler err }]. *)
Definition try_catch {DB A : Type} (m : Promise DB A)
  (handler : Exn -> Promise DB A) : Promise DB A :=
  fun db =>
    match m db with
    | (db', Fulfilled a) => (db', Fulfilled a)
    | (db', Rejected e) => handler e db'
    end.

Declare Scope promise_scope.
Delimit Scope promise_scope with promise.
Notation "x <- m ;; k" := (bind m (fun x => k))
  (at level 100, m at next level, right associativity) : promise_scope.
Notation "m ;;; k" := (bind m (fun _ => k))
  (at level 100, right associativity) : promise_scope.

(** [Promise.all].  The promises of the array run concurrently: each one
    takes its step on the store at some moment, and the program does not fix
    the order of those moments.  That order is the [schedule], the positions
    of the array (from 0) in the order in which the promises settle.
    [settle] runs the promises in that order and logs each position with
    its outcome; a rejection does not stop the promises that are still
    pending. *)
Fixpoint settle {DB A : Type} (schedule : list nat) (ps : list (Promise DB A))
  (db : DB) : DB * list (nat * Settled A) :=
  match schedule with
  | [] => (db, [])
  | k :: rest =>
      match nth_error ps k with
      | None => settle rest ps db
      | Some p =>
          let (db1, r) := p db in
          let (db2, log) := settle rest ps db1 in
          (db2, (k, r) :: log)
      end
  end.

(** The rejection that comes first in time, if any. *)
Fixpoint first_rejection {A : Type} (log : list (nat * Settled A))
  : option Exn :=
  match log with
  | [] => None
  | (_, Rejected e) :: _ => Some e
  | (_, Fulfilled _) :: rest => first_rejection rest
  end.

Fixpoint fulfilled_at {A : Type} (k : nat) (log : list (nat * Settled A))
  : option A :=
  match log with
  | [] => None
  | (j, r) :: rest =>
      if (j =? k)%nat
      then match r with
           | Fulfilled a => Some a
           | Rejected _ => None
           end
      else fulfilled_at k rest
  end.

(** The values of the fulfilled promises, in the order of the array. *)
Definition values {A : Type} (n : nat) (log : list (nat * Settled A))
  : list A :=
  flat_map (fun k => match fulfilled_at k log with
                     | Some a => [a]
                     | None => []
                     end)
           (seq 0 n).

(** The promise [Promise.all] returns: rejected with the first rejection,
    and then without any value; fulfilled with the array of all values
    otherwise. *)
Definition Promise_all {DB A : Type} (schedule : list nat)
  (ps : list (Promise DB A)) : Promise DB (list A) :=
  fun db =>
    let (db', log) := settle schedule ps db in
    (db', match first_rejection log with
          | Some e => Rejected e
          | None => Fulfilled (values (List.length ps) log)
          end).

(** ** The Prisma client, as the service sees it *)

(** [where] of [findFirst] and [findMany]: the fields given must all match. *)
Record CountryWhereInput : Type := {
  where_id : option Z;
  where_deleted : option bool
}.

(** [where] of [update], [delete] and [upsert]: one unique column. *)
Inductive CountryWhereUniqueInput : Type :=
| ById (i : Z)
| ByAbbreviation (a : string).

(** [data] of [update] (and [update] of [upsert]): the columns to set. *)
Record CountryUpdateInput : Type := {
  set_name : option string;
  set_abbreviation : option string;
  set_details : option string;
  set_deleted : option bool
}.

Record VisitWhereInput : Type := { where_countryId : option Z }.
Record VisitUpdateInput : Type := { set_visit_deleted : option bool }.

(** The seven calls the service makes on [repo]. *)
Class PrismaClient (DB : Type) : Type := {
  country_findFirst : CountryWhereInput -> Promise DB (option Country);
  country_findMany : CountryWhereInput -> Promise DB (list Country);
  country_create : CreateCountryDto -> Promise DB Country;
  country_update :
    CountryWhereUniqueInput -> CountryUpdateInput -> Promise DB Country;
  country_delete : CountryWhereUniqueInput -> Promise DB Country;
  country_upsert :
    CountryWhereUniqueInput -> CreateCountryDto -> CountryUpdateInput ->
    Promise DB Country;
  visit_updateMany : VisitWhereInput -> VisitUpdateInput -> Promise DB nat
}.

(** [ExternalService]: [getData path] either yields the raw listing or
    throws; it does not touch the store. *)
Record ExternalService (Raw : Type) : Type := {
  getData : string -> Settled (list Raw)
}.
Arguments getData {Raw} _ _.

(** An object literal passed where Prisma expects its input type. *)
Definition update_of_create (data : CreateCountryDto) : CountryUpdateInput :=
  {| set_name := Some (dto_name data);
     set_abbreviation := Some (dto_abbreviation data);
     set_details := Some (dto_details data);
     set_deleted := None |}.

Definition update_of_dto (data : UpdateCountryDto) : CountryUpdateInput :=
  {| set_name := upd_name data;
     set_abbreviation := upd_abbreviation data;
     set_details := upd_details data;
     set_deleted := None |}.

(** [{ deleted: true }]. *)
Definition mark_deleted : CountryUpdateInput :=
  {| set_name := None; set_abbreviation := None; set_details := None;
     set_deleted := Some true |}.

(** ** Messages *)

Definition dquote : string := String (ascii_of_nat 34) EmptyString.

(** A number inside a template literal. *)
Definition show_id (i : Z) : string := NilZero.string_of_int (Z.to_int i).

Definition msg_get_not_found (i : Z) : string :=
  ("Country with id #" ++ show_id i ++ " not found")%string.

Definition msg_list_not_found : string := "Countries not found"%string.

Definition msg_update_not_found (i : Z) : string :=
  ("Country with id " ++ dquote ++ "#" ++ show_id i ++ dquote
     ++ " not found")%string.

Definition msg_already_exists (data : CreateCountryDto) : string :=
  ("Country with name " ++ dquote ++ dto_name data ++ dquote
     ++ " or abbreviation " ++ dquote ++ dto_abbreviation data ++ dquote
     ++ " already exists")%string.

(** ** The service: [class CountryService] *)

Section Service.
Context {DB : Type} {repo : PrismaClient DB}.
Context {RawCountry CountryOutputDto : Type}.

(** The module-level adapter and the two functions of
    [utils/sanitizeData], whose code is not part of the service. *)
Variable countriesApiService : ExternalService RawCountry.
Variable sanitizeCountryAPI : RawCountry -> CreateCountryDto.
Variable sanitizeCountry : Country -> CountryOutputDto.

Local Open Scope promise_scope.

Definition fetch (path : string) : Promise DB (list RawCountry) :=
  fun db => (db, getData countriesApiService path).

Definition getExternalCountries : Promise DB (list CreateCountryDto) :=
  countries <- fetch EmptyString ;;
  ret (map sanitizeCountryAPI countries).

Definition upsertCountry (data : CreateCountryDto)
  : Promise DB CountryOutputDto :=
  country <- country_upsert (ByAbbreviation (dto_abbreviation data))
               data (update_of_create data) ;;
  ret (sanitizeCountry country).

(** [schedule] is the order in which the concurrent upserts reach the
    store. *)
Definition upsertCountriesFromAPI (schedule : list nat)
  : Promise DB (list CountryOutputDto) :=
  countries <- fetch EmptyString ;;
  let sanitizedCountries := map sanitizeCountryAPI countries in
  upsertedCountries <- Promise_all schedule
                         (map upsertCountry sanitizedCountries) ;;
  ret upsertedCountries.

Definition getCountry (i : Z) : Promise DB CountryOutputDto :=
  country <- country_findFirst
               {| where_id := Some i; where_deleted := Some false |} ;;
  match country with
  | None => throw (NotFoundError (msg_get_not_found i))
  | Some c => ret (sanitizeCountry c)
  end.

Definition getCountries : Promise DB (list CountryOutputDto) :=
  countries <- country_findMany
                 {| where_id := None; where_deleted := Some false |} ;;
  if (List.length countries =? 0)%nat
  then throw (NotFoundError msg_list_not_found)
  else ret (map sanitizeCountry countries).

(** The catch block of [updateCountry]. *)
Definition updateCountry_catch (i : Z) (err : Exn)
  : Promise DB CountryOutputDto :=
  match err with
  | PrismaClientKnownRequestError code =>
      if (code =? "P2010")%string
      then throw (NotFoundError (msg_update_not_found i))
      else throw err
  | _ => throw err
  end.

Definition updateCountry (i : Z) (data : UpdateCountryDto)
  : Promise DB CountryOutputDto :=
  try_catch
    (country <- country_update (ById i) (update_of_dto data) ;;
     ret (sanitizeCountry country))
    (updateCountry_catch i).

(** [hard: boolean = false]: an omitted argument is [None]. *)
Definition deleteCountry (i : Z) (hard : option bool)
  : Promise DB CountryOutputDto :=
  let hard := match hard with Some b => b | None => false end in
  if hard
  then
    country <- country_delete (ById i) ;;
    ret (sanitizeCountry country)
  else
    updatedCountry <- country_update (ById i) mark_deleted ;;
    visit_updateMany {| where_countryId := Some i |}
                     {| set_visit_deleted := Some true |} ;;;
    ret (sanitizeCountry updatedCountry).

(** The catch block of [createCountry]. *)
Definition createCountry_catch (data : CreateCountryDto) (err : Exn)
  : Promise DB CountryOutputDto :=
  match err with
  | PrismaClientKnownRequestError code =>
      if (code =? "P2002")%string
      then throw (AlreadyExistsError (msg_already_exists data))
      else throw err
  | _ => throw err
  end.

Definition createCountry (data : CreateCountryDto)
  : Promise DB CountryOutputDto :=
  try_catch
    (country <- country_create data ;;
     ret (sanitizeCountry country))
    (createCountry_catch data).

End Service.

(** ** The store behind the client *)

(** Modelled from the spec: the Prisma schema and the generated client are
    not among the sources.  The store holds the two tables; [id] is
    assigned from a counter; [name] and [abbreviation] are the two unique
    columns (section 4.2, [create]); a Visit refers to a Country by value
    only, so removing a Country leaves its Visits in place (section 8).
    The codes are those of the Prisma error reference: [P2002] for a unique
    constraint that fails, [P2025] for an operation on a record that is not
    found ([P2010] is the code of a raw query that fails, and no call of the
    service is a raw query). *)
Record Database : Type := {
  countries : list Country;
  visits : list Visit;
  nextCountryId : Z
}.

Definition P2002 : Exn := PrismaClientKnownRequestError "P2002".
Definition P2025 : Exn := PrismaClientKnownRequestError "P2025".

Definition opt_matches {A : Type} (eqb : A -> A -> bool) (w : option A) (a : A)
  : bool :=
  match w with
  | None => true
  | Some x => eqb x a
  end.

Definition country_matches (w : CountryWhereInput) (c : Country) : bool :=
  opt_matches Z.eqb (where_id w) (id c)
  && opt_matches Bool.eqb (where_deleted w) (deleted c).

Definition unique_matches (w : CountryWhereUniqueInput) (c : Country) : bool :=
  match w with
  | ById i => i =? id c
  | ByAbbreviation a => (a =? abbreviation c)%string
  end.

Definition visit_matches (w : VisitWhereInput) (v : Visit) : bool :=
  opt_matches Z.eqb (where_countryId w) (countryId v).

Definition or_keep {A : Type} (w : option A) (old : A) : A :=
  match w with
  | None => old
  | Some x => x
  end.

Definition apply_update (u : CountryUpdateInput) (c : Country) : Country :=
  {| id := id c;
     name := or_keep (set_name u) (name c);
     abbreviation := or_keep (set_abbreviation u) (abbreviation c);
     details := or_keep (set_details u) (details c);
     deleted := or_keep (set_deleted u) (deleted c) |}.

Definition apply_visit_update (u : VisitUpdateInput) (v : Visit) : Visit :=
  {| visit_id := visit_id v;
     countryId := countryId v;
     visit_details := visit_details v;
     visit_deleted := or_keep (set_visit_deleted u) (visit_deleted v) |}.

(** A row with this name or this abbreviation is already in the table. *)
Definition taken (n a : string) (rows : list Country) : bool :=
  existsb (fun o => (name o =? n)%string || (abbreviation o =? a)%string) rows.

Definition other_rows (c : Country) (rows : list Country) : list Country :=
  filter (fun o => negb (id o =? id c)) rows.

Definition replace_row (c' : Country) (rows : list Country) : list Country :=
  map (fun o => if id o =? id c' then c' else o) rows.

Definition new_row (i : Z) (data : CreateCountryDto) : Country :=
  {| id := i;
     name := dto_name data;
     abbreviation := dto_abbreviation data;
     details := dto_details data;
     deleted := false |}.

Definition prisma_country_findFirst (w : CountryWhereInput)
  : Promise Database (option Country) :=
  fun db => (db, Fulfilled (find (country_matches w) (countries db))).

Definition prisma_country_findMany (w : CountryWhereInput)
  : Promise Database (list Country) :=
  fun db => (db, Fulfilled (filter (country_matches w) (countries db))).

Definition prisma_country_create (data : CreateCountryDto)
  : Promise Database Country :=
  fun db =>
    if taken (dto_name data) (dto_abbreviation data) (countries db)
    then (db, Rejected P2002)
    else
      let c := new_row (nextCountryId db) data in
      ({| countries := countries db ++ [c];
          visits := visits db;
          nextCountryId := nextCountryId db + 1 |},
       Fulfilled c).

Definition prisma_country_update (w : CountryWhereUniqueInput)
  (u : CountryUpdateInput) : Promise Database Country :=
  fun db =>
    match find (unique_matches w) (countries db) with
    | None => (db, Rejected P2025)
    | Some c =>
        let c' := apply_update u c in
        if taken (name c') (abbreviation c') (other_rows c (countries db))
        then (db, Rejected P2002)
        else
          ({| countries := replace_row c' (countries db);
              visits := visits db;
              nextCountryId := nextCountryId db |},
           Fulfilled c')
    end.

Definition prisma_country_delete (w : CountryWhereUniqueInput)
  : Promise Database Country :=
  fun db =>
    match find (unique_matches w) (countries db) with
    | None => (db, Rejected P2025)
    | Some c =>
        ({| countries := other_rows c (countries db);
            visits := visits db;
            nextCountryId := nextCountryId db |},
         Fulfilled c)
    end.

Definition prisma_country_upsert (w : CountryWhereUniqueInput)
  (create : CreateCountryDto) (update : CountryUpdateInput)
  : Promise Database Country :=
  fun db =>
    match find (unique_matches w) (countries db) with
    | Some _ => prisma_country_update w update db
    | None => prisma_country_create create db
    end.

Definition prisma_visit_updateMany (w : VisitWhereInput) (u : VisitUpdateInput)
  : Promise Database nat :=
  fun db =>
    ({| countries := countries db;
        visits := map (fun v => if visit_matches w v
                                then apply_visit_update u v else v)
                      (visits db);
        nextCountryId := nextCountryId db |},
     Fulfilled (List.length (filter (visit_matches w) (visits db)))).

#[export] Instance prisma : PrismaClient Database := {
  country_findFirst := prisma_country_findFirst;
  country_findMany := prisma_country_findMany;
  country_create := prisma_country_create;
  country_update := prisma_country_update;
  country_delete := prisma_country_delete;
  country_upsert := prisma_country_upsert;
  visit_updateMany := prisma_visit_updateMany
}.

(** What the schema guarantees of every state of the store: identifiers,
    names and abbreviations are unique, and the counter is ahead of every
    identifier in use. *)
Definition consistent (db : Database) : Prop :=
  NoDup (map id (countries db))
  /\ NoDup (map name (countries db))
  /\ NoDup (map abbreviation (countries db))
  /\ Forall (fun c => id c < nextCountryId db) (countries db).

Definition empty_db : Database :=
  {| countries := []; visits := []; nextCountryId := 1 |}.

(** The Countries stored under an abbreviation. *)
Definition with_abbreviation (a : string) (db : Database) : list Country :=
  filter (fun c => (abbreviation c =? a)%string) (countries db).

(** No Country filed under another abbreviation holds the name of [data]. *)
Definition name_free (data : CreateCountryDto) (db : Database) : bool :=
  forallb (fun c => (abbreviation c =? dto_abbreviation data)%string
                    || negb (name c =? dto_name data)%string)
          (countries db).

(** The Countries a regular read sees. *)
Definition alive (db : Database) : list Country :=
  filter (fun c => negb (deleted c)) (countries db).

(** The store after the two writes of a soft delete of [c]. *)
Definition soft_deleted (c : Country) (db : Database) : Database :=
  {| countries := replace_row (apply_update mark_deleted c) (countries db);
     visits := map (fun v => if countryId v =? id c
                             then apply_visit_update
                                    {| set_visit_deleted := Some true |} v
                             else v)
                   (visits db);
     nextCountryId := nextCountryId db |}.

(** The store after the removal of [c]. *)
Definition hard_deleted (c : Country) (db : Database) : Database :=
  {| countries := other_rows c (countries db);
     visits := visits db;
     nextCountryId := nextCountryId db |}.

(** [{}]: an update payload without any field. *)
Definition no_change : UpdateCountryDto :=
  {| upd_name := None; upd_abbreviation := None; upd_details := None |}.

(** ** Sample data *)

Module Sample.

(** A raw record of the provider and the public shape, for the concrete
    runs below. *)
Record RawCountry : Type := {
  raw_name : string;
  raw_abbreviation : string;
  raw_capital : string
}.

Record CountryOutputDto : Type := {
  out_id : Z;
  out_name : string;
  out_abbreviation : string;
  out_details : string
}.

Definition sanitizeCountryAPI (r : RawCountry) : CreateCountryDto :=
  {| dto_name := raw_name r;
     dto_abbreviation := raw_abbreviation r;
     dto_details := raw_capital r |}.

Definition sanitizeCountry (c : Country) : CountryOutputDto :=
  {| out_id := id c;
     out_name := name c;
     out_abbreviation := abbreviation c;
     out_details := details c |}.

Definition spain : Country :=
  {| id := 1; name := "Spain"; abbreviation := "ES"; details := "Madrid";
     deleted := false |}.

Definition france : Country :=
  {| id := 2; name := "France"; abbreviation := "FR"; details := "Paris";
     deleted := false |}.

Definition france_gone : Country :=
  {| id := 2; name := "France"; abbreviation := "FR"; details := "Paris";
     deleted := true |}.

Definition visit1 : Visit :=
  {| visit_id := 1; countryId := 1; visit_details := "May";
     visit_deleted := false |}.

Definition visit2 : Visit :=
  {| visit_id := 2; countryId := 1; visit_details := "June";
     visit_deleted := false |}.

Definition visit3 : Visit :=
  {| visit_id := 3; countryId := 2; visit_details := "July";
     visit_deleted := false |}.

Definition db0 : Database :=
  {| countries := [spain; france]; visits := [visit1; visit2; visit3];
     nextCountryId := 3 |}.

Definition db1 : Database :=
  {| countries := [spain; france_gone]; visits := [visit1; visit2; visit3];
     nextCountryId := 3 |}.

Definition spain_dto : CreateCountryDto :=
  {| dto_name := "Spain"; dto_abbreviation := "ES";
     dto_details := "Madrid" |}.

Definition italy_dto : CreateCountryDto :=
  {| dto_name := "Italy"; dto_abbreviation := "IT"; dto_details := "Rome" |}.

Definition france_dto : CreateCountryDto :=
  {| dto_name := "France"; dto_abbreviation := "FR";
     dto_details := "Paris, Ile-de-France" |}.

Definition rename : UpdateCountryDto :=
  {| upd_name := Some "Espana"%string; upd_abbreviation := None;
     upd_details := None |}.

Definition listing : list RawCountry :=
  [ {| raw_name := "Italy"; raw_abbreviation := "IT"; raw_capital := "Roma" |};
    {| raw_name := "Spain"; raw_abbreviation := "ES";
       raw_capital := "Madrid" |};
    {| raw_name := "Italy"; raw_abbreviation := "IT";
       raw_capital := "Rome" |} ].

Definition api : ExternalService RawCountry :=
  {| getData := fun _ => Fulfilled listing |}.

Definition italy : Country :=
  {| id := 3; name := "Italy"; abbreviation := "IT"; details := "Rome";
     deleted := false |}.

(** [db0] once Italy is stored. *)
Definition db0_italy : Database :=
  {| countries := [spain; france; italy];
     visits := [visit1; visit2; visit3];
     nextCountryId := 4 |}.

(** The soft-deleted France of [db1] after an upsert of [france_dto]. *)
Definition france_resynced : Country :=
  {| id := 2; name := "France"; abbreviation := "FR";
     details := "Paris, Ile-de-France"; deleted := true |}.

(** A record with the name of Italy under another abbreviation. *)
Definition italia_dto : CreateCountryDto :=
  {| dto_name := "Italy"; dto_abbreviation := "ITA";
     dto_details := "Roma" |}.

(** An adapter whose call fails, and one that delivers nothing. *)
Definition offline : ExternalService RawCountry :=
  {| getData := fun _ => Rejected (OtherError "ECONNREFUSED") |}.

Definition silent : ExternalService RawCountry :=
  {| getData := fun _ => Fulfilled [] |}.

End Sample.

(** * Properties *)

(** ** Lists of rows *)

Lemma string_eqb_true (a b : string) : (a =? b)%string = true <-> a = b.
Proof. apply String.eqb_eq. Qed.

Lemma string_eqb_false (a b : string) : (a =? b)%string = false <-> a <> b.
Proof. apply String.eqb_neq. Qed.

Lemma taken_false (n a : string) (rows : list Country) :
  taken n a rows = false <->
  forall o, In o rows -> name o <> n /\ abbreviation o <> a.
Proof.
  unfold taken. induction rows as [| r rows IH]; simpl.
  - split; [intros _ o [] | reflexivity].
  - rewrite !orb_false_iff, IH, !string_eqb_false. split.
    + intros [[Hn Ha] Hrest] o [<- | Hin]; [split; assumption | auto].
    + intros H. split; [split; apply (H r); left; reflexivity |].
      intros o Hin. apply H. right. exact Hin.
Qed.

Lemma taken_true (n a : string) (rows : list Country) :
  taken n a rows = true <->
  exists o, In o rows /\ (name o = n \/ abbreviation o = a).
Proof.
  unfold taken. rewrite existsb_exists. split.
  - intros [o [Hin H]]. exists o. split; [exact Hin |].
    apply orb_true_iff in H. rewrite !string_eqb_true in H. exact H.
  - intros [o [Hin H]]. exists o. split; [exact Hin |].
    apply orb_true_iff. rewrite !string_eqb_true. exact H.
Qed.

Section Keys.
(** A column [key] of the Country table with a decidable equality. *)
Context {K : Type} (key : Country -> K) (eqb : K -> K -> bool).
Hypothesis eqb_spec : forall x y, eqb x y = true <-> x = y.

Lemma find_key_In (rows : list Country) (c : Country) :
  NoDup (map key rows) -> In c rows ->
  find (fun o => eqb (key c) (key o)) rows = Some c.
Proof.
  induction rows as [| r rows IH]; simpl; intros Hnd Hin; [contradiction |].
  inversion Hnd as [| ? ? Hfresh Hnd']; subst.
  destruct Hin as [-> | Hin].
  - replace (eqb (key c) (key c)) with true; [reflexivity |].
    symmetry. apply eqb_spec. reflexivity.
  - destruct (eqb (key c) (key r)) eqn:E.
    + apply eqb_spec in E. exfalso. apply Hfresh. rewrite <- E.
      apply in_map. exact Hin.
    + apply IH; assumption.
Qed.

Lemma find_key_None (rows : list Country) (k : K) :
  find (fun o => eqb k (key o)) rows = None <->
  forall o, In o rows -> key o <> k.
Proof.
  induction rows as [| r rows IH]; simpl.
  - split; [intros _ o [] | reflexivity].
  - destruct (eqb k (key r)) eqn:E.
    + apply eqb_spec in E. split; [discriminate |].
      intros H. exfalso. apply (H r); [left; reflexivity | congruence].
    + rewrite IH. split.
      * intros H o [<- | Hin]; [| auto].
        intros Heq. rewrite Heq in E.
        assert (eqb k k = true) by (apply eqb_spec; reflexivity).
        congruence.
      * intros H o Hin. apply H. right. exact Hin.
Qed.

Lemma find_key_Some (rows : list Country) (k : K) (c : Country) :
  find (fun o => eqb k (key o)) rows = Some c -> In c rows /\ key c = k.
Proof.
  intros H. apply find_some in H. destruct H as [Hin E].
  apply eqb_spec in E. auto.
Qed.
End Keys.

Lemma Z_eqb_spec' (x y : Z) : (x =? y) = true <-> x = y.
Proof. apply Z.eqb_eq. Qed.

Lemma find_by_id (db : Database) (c : Country) :
  consistent db -> In c (countries db) ->
  find (unique_matches (ById (id c))) (countries db) = Some c.
Proof.
  intros [Hid _] Hin. simpl.
  apply (find_key_In id Z.eqb Z_eqb_spec'); assumption.
Qed.

Lemma find_by_abbreviation (db : Database) (c : Country) :
  consistent db -> In c (countries db) ->
  find (unique_matches (ByAbbreviation (abbreviation c))) (countries db)
  = Some c.
Proof.
  intros [_ [_ [Hab _]]] Hin. simpl.
  apply (find_key_In abbreviation String.eqb string_eqb_true); assumption.
Qed.

Lemma find_by_id_None (rows : list Country) (i : Z) :
  find (unique_matches (ById i)) rows = None <->
  forall o, In o rows -> id o <> i.
Proof. apply (find_key_None id Z.eqb Z_eqb_spec'). Qed.

Lemma find_by_abbreviation_None (rows : list Country) (a : string) :
  find (unique_matches (ByAbbreviation a)) rows = None <->
  forall o, In o rows -> abbreviation o <> a.
Proof. apply (find_key_None abbreviation String.eqb string_eqb_true). Qed.

Lemma In_other_rows (c x : Country) (rows : list Country) :
  In x (other_rows c rows) <-> In x rows /\ id x <> id c.
Proof.
  unfold other_rows. rewrite filter_In, negb_true_iff, Z.eqb_neq. tauto.
Qed.

Lemma In_replace_row (c' x : Country) (rows : list Country) :
  In x (replace_row c' rows) <->
  (x = c' /\ exists o, In o rows /\ id o = id c')
  \/ (In x rows /\ id x <> id c').
Proof.
  unfold replace_row. rewrite in_map_iff. split.
  - intros [o [Hx Hin]]. destruct (Z.eqb_spec (id o) (id c')) as [E | E].
    + left. split; [auto | exists o; auto].
    + right. subst x. auto.
  - intros [[-> [o [Hin E]]] | [Hin E]].
    + exists o. split; [| exact Hin].
      apply Z.eqb_eq in E. rewrite E. reflexivity.
    + exists x. split; [| exact Hin].
      apply Z.eqb_neq in E. rewrite E. reflexivity.
Qed.

Lemma map_id_replace_row (c' : Country) (rows : list Country) :
  map id (replace_row c' rows) = map id rows.
Proof.
  unfold replace_row. rewrite map_map. apply map_ext. intros o.
  destruct (Z.eqb_spec (id o) (id c')); congruence.
Qed.

Lemma replace_row_absent (c' : Country) (rows : list Country) :
  (forall o, In o rows -> id o <> id c') -> replace_row c' rows = rows.
Proof.
  intros H. unfold replace_row. rewrite <- (map_id rows) at 2.
  apply map_ext_in. intros o Hin. apply H in Hin.
  apply Z.eqb_neq in Hin. rewrite Hin. reflexivity.
Qed.

Lemma replace_row_same (c : Country) (rows : list Country) :
  NoDup (map id rows) -> In c rows -> replace_row c rows = rows.
Proof.
  intros Hnd Hin. unfold replace_row. rewrite <- (map_id rows) at 2.
  apply map_ext_in. intros o Ho.
  destruct (Z.eqb_spec (id o) (id c)) as [E | E]; [| reflexivity].
  pose proof (find_key_In id Z.eqb Z_eqb_spec' rows c Hnd Hin) as Hc.
  pose proof (find_key_In id Z.eqb Z_eqb_spec' rows o Hnd Ho) as Ho'.
  rewrite E in Ho'. congruence.
Qed.

Section Columns.
Context {K : Type} (key : Country -> K).

Lemma NoDup_map_filter (f : Country -> bool) (rows : list Country) :
  NoDup (map key rows) -> NoDup (map key (filter f rows)).
Proof.
  induction rows as [| r rows IH]; simpl; intros Hnd; [constructor |].
  inversion Hnd as [| ? ? Hfresh Hnd']; subst.
  destruct (f r); simpl; [| auto].
  constructor; [| auto].
  intros Hin. apply Hfresh. apply in_map_iff in Hin.
  destruct Hin as [o [E Ho]]. apply filter_In in Ho.
  apply in_map_iff. exists o. tauto.
Qed.

Lemma NoDup_map_snoc (c : Country) (rows : list Country) :
  NoDup (map key rows) -> (forall o, In o rows -> key o <> key c) ->
  NoDup (map key (rows ++ [c])).
Proof.
  intros Hnd Hfresh. rewrite map_app. simpl.
  apply NoDup_app; [exact Hnd | repeat constructor; simpl; tauto |].
  intros k Hk [<- | []]. apply in_map_iff in Hk.
  destruct Hk as [o [E Ho]]. apply (Hfresh o Ho E).
Qed.

Lemma NoDup_map_replace_row (c' : Country) (rows : list Country) :
  NoDup (map id rows) -> NoDup (map key rows) ->
  (forall o, In o rows -> id o <> id c' -> key o <> key c') ->
  NoDup (map key (replace_row c' rows)).
Proof.
  induction rows as [| r rows IH]; simpl; intros Hid Hk Hfresh;
    [constructor |].
  inversion Hid as [| ? ? Hid1 Hid2]; subst.
  inversion Hk as [| ? ? Hk1 Hk2]; subst.
  fold (replace_row c' rows).
  destruct (Z.eqb_spec (id r) (id c')) as [E | E].
  - assert (Hab : forall o, In o rows -> id o <> id c').
    { intros o Ho Heq. apply Hid1. rewrite E, <- Heq.
      apply in_map. exact Ho. }
    rewrite (replace_row_absent c' rows Hab).
    constructor; [| exact Hk2].
    intros Hin. apply in_map_iff in Hin. destruct Hin as [o [Eo Ho]].
    apply (Hfresh o); [right; exact Ho | apply Hab; exact Ho | exact Eo].
  - constructor.
    + intros Hin. apply in_map_iff in Hin. destruct Hin as [x [Ex Hx]].
      apply In_replace_row in Hx.
      destruct Hx as [[-> _] | [Hx _]].
      * apply (Hfresh r); [left; reflexivity | exact E | congruence].
      * apply Hk1. rewrite <- Ex. apply in_map. exact Hx.
    + apply IH; [assumption | assumption |].
      intros o Ho. apply Hfresh. right. exact Ho.
Qed.
End Columns.

(** ** The store keeps its constraints *)

Lemma empty_db_consistent : consistent empty_db.
Proof. repeat split; simpl; constructor. Qed.

Lemma create_consistent (data : CreateCountryDto) (db db' : Database)
  (r : Settled Country) :
  consistent db -> prisma_country_create data db = (db', r) -> consistent db'.
Proof.
  intros Hc. unfold prisma_country_create.
  destruct (taken _ _ _) eqn:T; intros H; inversion H; subst; [exact Hc |].
  destruct Hc as [Hid [Hn [Ha Hlt]]].
  pose proof (proj1 (taken_false _ _ _) T) as Hfree.
  repeat split; simpl.
  - apply NoDup_map_snoc; [exact Hid |].
    intros o Ho. simpl. rewrite Forall_forall in Hlt.
    specialize (Hlt o Ho). lia.
  - apply NoDup_map_snoc; [exact Hn |].
    intros o Ho. simpl. apply (Hfree o Ho).
  - apply NoDup_map_snoc; [exact Ha |].
    intros o Ho. simpl. apply (Hfree o Ho).
  - apply Forall_app. split.
    + eapply Forall_impl; [| exact Hlt]. simpl. intros; lia.
    + repeat constructor. simpl. lia.
Qed.

Lemma update_consistent (w : CountryWhereUniqueInput) (u : CountryUpdateInput)
  (db db' : Database) (r : Settled Country) :
  consistent db -> prisma_country_update w u db = (db', r) -> consistent db'.
Proof.
  intros Hc. unfold prisma_country_update.
  destruct (find _ _) as [c |] eqn:F;
    [| intros H; inversion H; subst; exact Hc].
  destruct (taken _ _ _) eqn:T; intros H; inversion H; subst; [exact Hc |].
  destruct Hc as [Hid [Hn [Ha Hlt]]].
  pose proof (proj1 (taken_false _ _ _) T) as Hfree.
  apply find_some in F. destruct F as [Hin _].
  assert (Hoth : forall o, In o (countries db) ->
                   id o <> id (apply_update u c) ->
                   name o <> name (apply_update u c)
                   /\ abbreviation o <> abbreviation (apply_update u c)).
  { intros o Ho Hne. apply Hfree. apply In_other_rows. auto. }
  repeat split; simpl.
  - rewrite map_id_replace_row. exact Hid.
  - apply NoDup_map_replace_row; [exact Hid | exact Hn |].
    intros o Ho Hne. apply (Hoth o Ho Hne).
  - apply NoDup_map_replace_row; [exact Hid | exact Ha |].
    intros o Ho Hne. apply (Hoth o Ho Hne).
  - rewrite Forall_forall in *. intros x Hx.
    apply In_replace_row in Hx. destruct Hx as [[-> _] | [Hx _]].
    + simpl. apply (Hlt c Hin).
    + apply (Hlt x Hx).
Qed.

Lemma delete_consistent (w : CountryWhereUniqueInput) (db db' : Database)
  (r : Settled Country) :
  consistent db -> prisma_country_delete w db = (db', r) -> consistent db'.
Proof.
  intros Hc. unfold prisma_country_delete.
  destruct (find _ _) as [c |] eqn:F; intros H; inversion H; subst;
    [| exact Hc].
  destruct Hc as [Hid [Hn [Ha Hlt]]].
  repeat split; simpl; unfold other_rows.
  - apply NoDup_map_filter. exact Hid.
  - apply NoDup_map_filter. exact Hn.
  - apply NoDup_map_filter. exact Ha.
  - rewrite Forall_forall in *. intros x Hx. apply filter_In in Hx.
    apply Hlt. tauto.
Qed.

Lemma upsert_consistent (w : CountryWhereUniqueInput) (d : CreateCountryDto)
  (u : CountryUpdateInput) (db db' : Database) (r : Settled Country) :
  consistent db -> prisma_country_upsert w d u db = (db', r) -> consistent db'.
Proof.
  intros Hc. unfold prisma_country_upsert.
  destruct (find _ _); [apply update_consistent | apply create_consistent];
    exact Hc.
Qed.

Lemma updateMany_consistent (w : VisitWhereInput) (u : VisitUpdateInput)
  (db db' : Database) (r : Settled nat) :
  consistent db -> prisma_visit_updateMany w u db = (db', r) -> consistent db'.
Proof.
  intros Hc H. inversion H; subst. exact Hc.
Qed.

(** ** What each store call does on a consistent store *)

Lemma update_row (db : Database) (c : Country) (u : CountryUpdateInput) :
  consistent db -> In c (countries db) ->
  taken (name (apply_update u c)) (abbreviation (apply_update u c))
        (other_rows c (countries db)) = false ->
  prisma_country_update (ById (id c)) u db =
  ({| countries := replace_row (apply_update u c) (countries db);
      visits := visits db;
      nextCountryId := nextCountryId db |},
   Fulfilled (apply_update u c)).
Proof.
  intros Hc Hin T. unfold prisma_country_update.
  rewrite (find_by_id db c Hc Hin). rewrite T. reflexivity.
Qed.

Lemma others_keep_clear (db : Database) (c : Country) :
  consistent db -> In c (countries db) ->
  taken (name c) (abbreviation c) (other_rows c (countries db)) = false.
Proof.
  intros [Hid [Hn [Ha _]]] Hin. apply taken_false. intros o Ho.
  apply In_other_rows in Ho. destruct Ho as [Ho Hne].
  pose proof (find_key_In name String.eqb string_eqb_true _ _ Hn Ho) as F1.
  pose proof (find_key_In abbreviation String.eqb string_eqb_true _ _ Ha Ho)
    as F2.
  split; intros E.
  - rewrite E in F1.
    rewrite (find_key_In name String.eqb string_eqb_true _ _ Hn Hin) in F1.
    congruence.
  - rewrite E in F2.
    rewrite (find_key_In abbreviation String.eqb string_eqb_true _ _ Ha Hin)
      in F2.
    congruence.
Qed.

Lemma soft_delete_row (db : Database) (c : Country) :
  consistent db -> In c (countries db) ->
  prisma_country_update (ById (id c)) mark_deleted db =
  ({| countries := replace_row (apply_update mark_deleted c) (countries db);
      visits := visits db;
      nextCountryId := nextCountryId db |},
   Fulfilled (apply_update mark_deleted c)).
Proof.
  intros Hc Hin. apply update_row; [exact Hc | exact Hin |].
  simpl. apply others_keep_clear; assumption.
Qed.

Lemma delete_row (db : Database) (c : Country) :
  consistent db -> In c (countries db) ->
  prisma_country_delete (ById (id c)) db =
  ({| countries := other_rows c (countries db);
      visits := visits db;
      nextCountryId := nextCountryId db |},
   Fulfilled c).
Proof.
  intros Hc Hin. unfold prisma_country_delete.
  rewrite (find_by_id db c Hc Hin). reflexivity.
Qed.

Lemma absent_update (db : Database) (i : Z) (u : CountryUpdateInput) :
  (forall o, In o (countries db) -> id o <> i) ->
  prisma_country_update (ById i) u db = (db, Rejected P2025).
Proof.
  intros H. unfold prisma_country_update.
  rewrite (proj2 (find_by_id_None _ _) H). reflexivity.
Qed.

Lemma absent_delete (db : Database) (i : Z) :
  (forall o, In o (countries db) -> id o <> i) ->
  prisma_country_delete (ById i) db = (db, Rejected P2025).
Proof.
  intros H. unfold prisma_country_delete.
  rewrite (proj2 (find_by_id_None _ _) H). reflexivity.
Qed.

(** The two filters of the read paths, spelled out. *)
Lemma matches_alive_with_id (i : Z) (c : Country) :
  country_matches {| where_id := Some i; where_deleted := Some false |} c
  = (i =? id c) && negb (deleted c).
Proof. unfold country_matches. simpl. destruct (deleted c); reflexivity. Qed.

Lemma matches_alive (c : Country) :
  country_matches {| where_id := None; where_deleted := Some false |} c
  = negb (deleted c).
Proof. unfold country_matches. simpl. destruct (deleted c); reflexivity. Qed.

Lemma find_none_all {A : Type} (f : A -> bool) (l : list A) :
  (forall x, In x l -> f x = false) -> find f l = None.
Proof.
  induction l as [| a l IH]; simpl; intros H; [reflexivity |].
  rewrite (H a (or_introl eq_refl)). apply IH. intros x Hx. apply H.
  right. exact Hx.
Qed.

Lemma id_unique (db : Database) (c c0 : Country) :
  consistent db -> In c (countries db) -> In c0 (countries db) ->
  id c = id c0 -> c = c0.
Proof.
  intros Hc Hin Hin0 E.
  pose proof (find_by_id db c Hc Hin) as F.
  pose proof (find_by_id db c0 Hc Hin0) as F0.
  rewrite E in F. congruence.
Qed.

Lemma abbreviation_unique (db : Database) (c c0 : Country) :
  consistent db -> In c (countries db) -> In c0 (countries db) ->
  abbreviation c = abbreviation c0 -> c = c0.
Proof.
  intros Hc Hin Hin0 E.
  pose proof (find_by_abbreviation db c Hc Hin) as F.
  pose proof (find_by_abbreviation db c0 Hc Hin0) as F0.
  rewrite E in F. congruence.
Qed.

Lemma In_alive (db : Database) (c : Country) :
  In c (alive db) <-> In c (countries db) /\ deleted c = false.
Proof. unfold alive. rewrite filter_In, negb_true_iff. tauto. Qed.

Lemma findMany_alive (db : Database) :
  filter (country_matches {| where_id := None; where_deleted := Some false |})
         (countries db)
  = alive db.
Proof. apply filter_ext. intros c. apply matches_alive. Qed.

Ltac run_service :=
  unfold getCountry, getCountries, updateCountry, deleteCountry,
    createCountry, upsertCountry, upsertCountriesFromAPI,
    getExternalCountries, fetch, bind, try_catch, ret, throw;
  simpl.

(** ** The service on the Prisma store *)

Section OnThePrismaStore.
Context {RawCountry CountryOutputDto : Type}.
Variable countriesApiService : ExternalService RawCountry.
Variable sanitizeCountryAPI : RawCountry -> CreateCountryDto.
Variable sanitizeCountry : Country -> CountryOutputDto.

(** *** Reads *)

Lemma getCountries_run (db : Database) :
  getCountries sanitizeCountry db =
  (db, match alive db with
       | [] => Rejected (NotFoundError msg_list_not_found)
       | _ :: _ => Fulfilled (map sanitizeCountry (alive db))
       end).
Proof.
  run_service. unfold prisma_country_findMany.
  rewrite findMany_alive. destruct (alive db); reflexivity.
Qed.

(** C9. [list()] ([getCountries]) leaves the store as it is and yields
    the sanitized Countries whose [deleted] flag is false, in the order of
    the store; it is rejected with [NotFoundError] exactly when there is
    no such Country, and it is never fulfilled with an empty array. *)
Theorem getCountries_alive_or_NotFound (db : Database) :
  getCountries sanitizeCountry db =
    (db, match alive db with
         | [] => Rejected (NotFoundError msg_list_not_found)
         | _ :: _ => Fulfilled (map sanitizeCountry (alive db))
         end)
  /\ (forall c, In c (alive db) <-> In c (countries db) /\ deleted c = false)
  /\ (alive db = [] <->
      exists db' msg,
        getCountries sanitizeCountry db = (db', Rejected (NotFoundError msg)))
  /\ (forall db' e,
        getCountries sanitizeCountry db = (db', Rejected e) ->
        e = NotFoundError msg_list_not_found)
  /\ (forall db', getCountries sanitizeCountry db <> (db', Fulfilled [])).
Proof.
  rewrite getCountries_run.
  split; [reflexivity |]. split; [apply In_alive |].
  destruct (alive db) as [| c l] eqn:E; repeat split.
  - intros _. exists db, msg_list_not_found. reflexivity.
  - intros db' e H. inversion H. reflexivity.
  - intros db' H. discriminate H.
  - discriminate.
  - intros [db' [msg H]]. discriminate H.
  - intros db' e H. discriminate H.
  - intros db' H. discriminate H.
Qed.

Lemma find_alive_with_id (db : Database) (i : Z) :
  consistent db ->
  find (country_matches {| where_id := Some i; where_deleted := Some false |})
       (countries db)
  = match find (unique_matches (ById i)) (countries db) with
    | Some c => if deleted c then None else Some c
    | None => None
    end.
Proof.
  intros Hc.
  destruct (find (unique_matches (ById i)) (countries db)) as [c |] eqn:F.
  - apply (find_key_Some id Z.eqb Z_eqb_spec') in F. destruct F as [Hin <-].
    destruct (deleted c) eqn:D.
    + apply find_none_all. intros x Hx.
      rewrite matches_alive_with_id.
      destruct (Z.eqb_spec (id c) (id x)) as [E | E]; [| reflexivity].
      rewrite (id_unique db c x Hc Hin Hx E) in D. rewrite D. reflexivity.
    + destruct (find _ (countries db)) as [x |] eqn:G.
      * apply find_some in G. destruct G as [Hx M].
        rewrite matches_alive_with_id in M.
        apply andb_true_iff in M. destruct M as [M _].
        apply Z.eqb_eq in M.
        rewrite (id_unique db c x Hc Hin Hx M). reflexivity.
      * exfalso. pose proof (find_none _ _ G c Hin) as M.
        rewrite matches_alive_with_id, Z.eqb_refl, D in M. discriminate M.
  - apply find_none_all. intros x Hx. rewrite matches_alive_with_id.
    pose proof (proj1 (find_by_id_None _ _) F x Hx) as Hne.
    destruct (Z.eqb_spec i (id x)); [congruence | reflexivity].
Qed.

Lemma getCountry_run (db : Database) (i : Z) :
  consistent db ->
  getCountry sanitizeCountry i db =
  (db, match find (unique_matches (ById i)) (countries db) with
       | Some c => if deleted c
                   then Rejected (NotFoundError (msg_get_not_found i))
                   else Fulfilled (sanitizeCountry c)
       | None => Rejected (NotFoundError (msg_get_not_found i))
       end).
Proof.
  intros Hc. run_service. unfold prisma_country_findFirst.
  rewrite (find_alive_with_id db i Hc).
  destruct (find _ _) as [c |]; [destruct (deleted c) |]; reflexivity.
Qed.

(** *** Deleting *)

Lemma soft_delete_run (db : Database) (c : Country) (hard : option bool) :
  consistent db -> In c (countries db) ->
  hard = None \/ hard = Some false ->
  deleteCountry sanitizeCountry (id c) hard db =
  (soft_deleted c db,
   Fulfilled (sanitizeCountry (apply_update mark_deleted c))).
Proof.
  intros Hc Hin Hhard.
  assert (E : deleteCountry sanitizeCountry (id c) hard db
              = deleteCountry sanitizeCountry (id c) (Some false) db)
    by (destruct Hhard; subst; reflexivity).
  rewrite E. run_service. rewrite (soft_delete_row db c Hc Hin).
  unfold prisma_visit_updateMany, soft_deleted. simpl.
  f_equal. f_equal. apply map_ext. intros v.
  unfold visit_matches. simpl. rewrite Z.eqb_sym. reflexivity.
Qed.

Lemma hard_delete_run (db : Database) (c : Country) :
  consistent db -> In c (countries db) ->
  deleteCountry sanitizeCountry (id c) (Some true) db =
  (hard_deleted c db, Fulfilled (sanitizeCountry c)).
Proof.
  intros Hc Hin. run_service. rewrite (delete_row db c Hc Hin).
  reflexivity.
Qed.

Lemma soft_deleted_consistent (db : Database) (c : Country) :
  consistent db -> In c (countries db) -> consistent (soft_deleted c db).
Proof.
  intros Hc Hin.
  pose proof (update_consistent _ _ _ _ _ Hc (soft_delete_row db c Hc Hin))
    as [Hid [Hn [Ha Hlt]]].
  repeat split; assumption.
Qed.

Lemma In_soft_deleted (db : Database) (c : Country) :
  In c (countries db) ->
  In (apply_update mark_deleted c) (countries (soft_deleted c db)).
Proof.
  intros Hin. simpl. apply In_replace_row. left.
  split; [reflexivity | exists c; auto].
Qed.

(** C7. On a consistent store [get(id)] ([getCountry]) is fulfilled only
    with the sanitized Country that has this id and [deleted = false], and
    is rejected with [NotFoundError] exactly when no Country has the id or
    the one that has it is soft-deleted; after a soft delete of [c] the
    row is still in the store, flagged, and [get] of its id is rejected
    with [NotFoundError]. *)
Theorem getCountry_only_alive (db : Database) (i : Z) :
  consistent db ->
  (forall c, In c (countries db) -> id c = i -> deleted c = false ->
     getCountry sanitizeCountry i db = (db, Fulfilled (sanitizeCountry c)))
  /\ (forall db' out,
        getCountry sanitizeCountry i db = (db', Fulfilled out) ->
        db' = db
        /\ exists c, In c (countries db) /\ id c = i /\ deleted c = false
                     /\ out = sanitizeCountry c)
  /\ (getCountry sanitizeCountry i db
        = (db, Rejected (NotFoundError (msg_get_not_found i)))
      <-> (forall c, In c (countries db) -> id c <> i)
          \/ (exists c, In c (countries db) /\ id c = i /\ deleted c = true))
  /\ (forall db' e,
        getCountry sanitizeCountry i db = (db', Rejected e) ->
        db' = db /\ e = NotFoundError (msg_get_not_found i))
  /\ (forall c, In c (countries db) -> id c = i ->
        exists db' c',
          deleteCountry sanitizeCountry i None db
            = (db', Fulfilled (sanitizeCountry c'))
          /\ In c' (countries db') /\ id c' = i /\ deleted c' = true
          /\ getCountry sanitizeCountry i db'
             = (db', Rejected (NotFoundError (msg_get_not_found i)))).
Proof.
  intros Hc.
  assert (Hrun : forall d, consistent d ->
            forall c, In c (countries d) -> id c = i ->
            getCountry sanitizeCountry i d =
            (d, if deleted c
                then Rejected (NotFoundError (msg_get_not_found i))
                else Fulfilled (sanitizeCountry c))).
  { intros d Hd c Hin E. rewrite (getCountry_run d i Hd). subst i.
    rewrite (find_by_id d c Hd Hin). reflexivity. }
  rewrite (getCountry_run db i Hc).
  destruct (find (unique_matches (ById i)) (countries db)) as [c0 |] eqn:F.
  - apply (find_key_Some id Z.eqb Z_eqb_spec') in F.
    destruct F as [Hin0 E0].
    assert (Hsame : forall c, In c (countries db) -> id c = i -> c = c0).
    { intros c Hin E. apply (id_unique db); congruence. }
    split; [| split; [| split; [| split]]].
    + intros c Hin E D. rewrite <- (Hsame c Hin E), D. reflexivity.
    + intros db' out H. destruct (deleted c0) eqn:D; inversion H; subst.
      split; [reflexivity |]. exists c0. auto.
    + destruct (deleted c0) eqn:D; split.
      * intros _. right. exists c0. auto.
      * reflexivity.
      * discriminate.
      * intros [Hab | [c [Hin [E D']]]].
        -- exfalso. apply (Hab c0 Hin0 E0).
        -- rewrite (Hsame c Hin E) in D'. congruence.
    + intros db' e H. destruct (deleted c0); inversion H; auto.
    + intros c Hin E. clear Hsame E0. subst i.
      exists (soft_deleted c db), (apply_update mark_deleted c).
      split; [apply soft_delete_run; auto |].
      split; [apply In_soft_deleted; exact Hin |].
      split; [reflexivity |]. split; [reflexivity |].
      rewrite (Hrun (soft_deleted c db) (soft_deleted_consistent db c Hc Hin)
                    (apply_update mark_deleted c)
                    (In_soft_deleted db c Hin) eq_refl).
      reflexivity.
  - pose proof (proj1 (find_by_id_None _ _) F) as Hab.
    split; [| split; [| split; [| split]]].
    + intros c Hin E. exfalso. apply (Hab c Hin E).
    + intros db' out H. discriminate H.
    + split; [intros _; left; exact Hab | reflexivity].
    + intros db' e H. inversion H. auto.
    + intros c Hin E. exfalso. apply (Hab c Hin E).
Qed.

(** C4. On a consistent store, for a Country [c] of the store, a soft
    delete ([hard] omitted or false) first flags the Country, then flags
    every Visit whose [countryId] is [id c] and leaves the other Visits
    and the other Countries as they were; it is fulfilled with the
    sanitized flagged Country, and a [list()] that follows does not
    contain a row with that id. *)
Theorem soft_delete_cascades (db : Database) (c : Country)
  (hard : option bool) :
  consistent db -> In c (countries db) ->
  hard = None \/ hard = Some false ->
  let c' := apply_update mark_deleted c in
  let flag := apply_visit_update {| set_visit_deleted := Some true |} in
  exists db1 db2 n,
    country_update (ById (id c)) mark_deleted db = (db1, Fulfilled c')
    /\ visit_updateMany {| where_countryId := Some (id c) |}
         {| set_visit_deleted := Some true |} db1 = (db2, Fulfilled n)
    /\ deleteCountry sanitizeCountry (id c) hard db
       = (db2, Fulfilled (sanitizeCountry c'))
    /\ In c' (countries db2) /\ deleted c' = true /\ id c' = id c
    /\ name c' = name c /\ abbreviation c' = abbreviation c
    /\ details c' = details c
    /\ (forall x, In x (countries db2) -> id x = id c -> x = c')
    /\ (forall x, id x <> id c ->
          (In x (countries db2) <-> In x (countries db)))
    /\ visits db2
       = map (fun v => if countryId v =? id c then flag v else v) (visits db)
    /\ (forall v, In v (visits db2) -> countryId v = id c ->
          visit_deleted v = true)
    /\ (forall v, In v (visits db) -> countryId v = id c ->
          In (flag v) (visits db2))
    /\ (forall v, countryId v <> id c ->
          (In v (visits db2) <-> In v (visits db)))
    /\ (forall x, In x (alive db2) -> id x <> id c)
    /\ getCountries sanitizeCountry db2
       = (db2, match alive db2 with
               | [] => Rejected (NotFoundError msg_list_not_found)
               | _ :: _ => Fulfilled (map sanitizeCountry (alive db2))
               end).
Proof.
  intros Hc Hin Hhard c' flag.
  pose proof (soft_deleted_consistent db c Hc Hin) as Hc2.
  assert (Hin2 : In c' (countries (soft_deleted c db)))
    by (apply In_soft_deleted; exact Hin).
  assert (Huniq : forall x, In x (countries (soft_deleted c db)) ->
                    id x = id c -> x = c').
  { intros x Hx E. symmetry. apply (id_unique _ c' x Hc2 Hin2 Hx).
    simpl. congruence. }
  exists {| countries := replace_row c' (countries db);
            visits := visits db;
            nextCountryId := nextCountryId db |},
         (soft_deleted c db),
         (List.length (filter (visit_matches
                                 {| where_countryId := Some (id c) |})
                              (visits db))).
  split; [apply (soft_delete_row db c Hc Hin) |].
  split.
  { simpl. unfold prisma_visit_updateMany, soft_deleted. simpl.
    f_equal. f_equal. apply map_ext. intros v.
    unfold visit_matches. simpl. rewrite Z.eqb_sym. reflexivity. }
  split; [apply soft_delete_run; assumption |].
  split; [exact Hin2 |].
  do 5 (split; [reflexivity |]).
  split; [exact Huniq |].
  split.
  { intros x Hne. simpl. rewrite In_replace_row. simpl. split.
    - intros [[-> _] | [Hx _]]; [exfalso; apply Hne; reflexivity | exact Hx].
    - intros Hx. right. auto. }
  split; [reflexivity |].
  split.
  { simpl. intros v Hv E. apply in_map_iff in Hv.
    destruct Hv as [v0 [Ev Hv0]].
    destruct (Z.eqb_spec (countryId v0) (id c)) as [E0 | E0].
    - subst v. reflexivity.
    - subst v. contradiction. }
  split.
  { simpl. intros v Hv E. apply in_map_iff. exists v.
    apply Z.eqb_eq in E. rewrite E. auto. }
  split.
  { simpl. intros v Hne. rewrite in_map_iff. split.
    - intros [v0 [Ev Hv0]].
      destruct (Z.eqb_spec (countryId v0) (id c)) as [E0 | E0].
      + subst v. simpl in Hne. contradiction.
      + subst v. exact Hv0.
    - intros Hv. exists v. apply Z.eqb_neq in Hne. rewrite Hne. auto. }
  split.
  { intros x Hx E. apply In_alive in Hx. destruct Hx as [Hx D].
    rewrite (Huniq x Hx E) in D. discriminate D. }
  apply getCountries_run.
Qed.

(** C6. On a consistent store, for a Country [c] of the store, a hard
    delete removes the row (no row with that id is left), is fulfilled
    with the sanitized row as it was, leaves every other Country in place
    and leaves the table of Visits exactly as it was, the Visits that
    refer to [id c] included. *)
Theorem hard_delete_no_cascade (db : Database) (c : Country) :
  consistent db -> In c (countries db) ->
  exists db',
    deleteCountry sanitizeCountry (id c) (Some true) db
      = (db', Fulfilled (sanitizeCountry c))
    /\ ~ In c (countries db')
    /\ (forall x, In x (countries db') -> id x <> id c)
    /\ (forall x, id x <> id c ->
          (In x (countries db') <-> In x (countries db)))
    /\ visits db' = visits db
    /\ (forall v, In v (visits db) -> countryId v = id c ->
          In v (visits db')).
Proof.
  intros Hc Hin. exists (hard_deleted c db).
  split; [apply hard_delete_run; assumption |].
  simpl. repeat split.
  - intros H. apply In_other_rows in H. destruct H as [_ H].
    apply H. reflexivity.
  - intros x Hx. apply In_other_rows in Hx. tauto.
  - intros Hx. apply In_other_rows in Hx. tauto.
  - intros Hx. apply In_other_rows. auto.
  - auto.
Qed.

Lemma deleteCountry_rejections (db db' : Database) (i : Z)
  (hard : option bool) (e : Exn) :
  deleteCountry sanitizeCountry i hard db = (db', Rejected e) ->
  e = P2025 \/ e = P2002.
Proof.
  run_service. unfold prisma_country_delete, prisma_country_update.
  destruct hard as [[|] |];
    destruct (find _ _) as [c |]; simpl;
    try destruct (taken _ _ _); simpl;
    intros H; inversion H; auto.
Qed.

(** C10. [delete] has no catch block.  Over any client, in either mode,
    it is rejected exactly when one of its store calls is rejected, and
    then with that very value and in that very store state.  On the
    Prisma store a delete of an id that no Country has is rejected with
    the store's own [P2025] and changes nothing, and no rejection of
    [delete] is ever a [NotFoundError] or an [AlreadyExistsError]. *)
Theorem deleteCountry_rethrows :
  (forall (DB : Type) (repo : PrismaClient DB) (i : Z) (hard : option bool)
          (db db' : DB) (e : Exn),
      deleteCountry sanitizeCountry i hard db = (db', Rejected e) <->
      match hard with
      | Some true => country_delete (ById i) db = (db', Rejected e)
      | _ =>
          country_update (ById i) mark_deleted db = (db', Rejected e)
          \/ exists db1 c,
               country_update (ById i) mark_deleted db = (db1, Fulfilled c)
               /\ visit_updateMany {| where_countryId := Some i |}
                    {| set_visit_deleted := Some true |} db1
                  = (db', Rejected e)
      end)
  /\ (forall (db : Database) (i : Z) (hard : option bool),
        (forall c, In c (countries db) -> id c <> i) ->
        deleteCountry sanitizeCountry i hard db = (db, Rejected P2025))
  /\ (forall (db db' : Database) (i : Z) (hard : option bool) (e : Exn),
        deleteCountry sanitizeCountry i hard db = (db', Rejected e) ->
        (exists code, e = PrismaClientKnownRequestError code)
        /\ forall msg, e <> NotFoundError msg /\ e <> AlreadyExistsError msg).
Proof.
  split; [| split].
  - intros DB repo i hard db db' e. run_service.
    destruct hard as [[|] |].
    + destruct (country_delete (ById i) db) as [d [c | e0]]; split;
        intros H; inversion H; reflexivity.
    + destruct (country_update (ById i) mark_deleted db) as [d [c | e0]].
      * destruct (visit_updateMany _ _ d) as [d2 [n | e2]] eqn:V; split.
        -- discriminate.
        -- intros [H | [db1 [c1 [H1 H2]]]]; [discriminate H |].
           inversion H1; subst. rewrite V in H2. discriminate H2.
        -- intros H. inversion H; subst. right. exists d, c. auto.
        -- intros [H | [db1 [c1 [H1 H2]]]]; [discriminate H |].
           inversion H1; subst. rewrite V in H2. inversion H2. reflexivity.
      * split.
        -- intros H. left. inversion H. reflexivity.
        -- intros [H | [db1 [c1 [H1 _]]]]; [| discriminate H1].
           inversion H. reflexivity.
    + destruct (country_update (ById i) mark_deleted db) as [d [c | e0]].
      * destruct (visit_updateMany _ _ d) as [d2 [n | e2]] eqn:V; split.
        -- discriminate.
        -- intros [H | [db1 [c1 [H1 H2]]]]; [discriminate H |].
           inversion H1; subst. rewrite V in H2. discriminate H2.
        -- intros H. inversion H; subst. right. exists d, c. auto.
        -- intros [H | [db1 [c1 [H1 H2]]]]; [discriminate H |].
           inversion H1; subst. rewrite V in H2. inversion H2. reflexivity.
      * split.
        -- intros H. left. inversion H. reflexivity.
        -- intros [H | [db1 [c1 [H1 _]]]]; [| discriminate H1].
           inversion H. reflexivity.
  - intros db i hard Hab. run_service.
    destruct hard as [[|] |].
    + rewrite (absent_delete db i Hab). reflexivity.
    + rewrite (absent_update db i _ Hab). reflexivity.
    + rewrite (absent_update db i _ Hab). reflexivity.
  - intros db db' i hard e H.
    destruct (deleteCountry_rejections db db' i hard e H) as [-> | ->].
    + split; [exists "P2025"%string; reflexivity |].
      intros msg. split; discriminate.
    + split; [exists "P2002"%string; reflexivity |].
      intros msg. split; discriminate.
Qed.

(** *** Updating *)

(** The catch block maps one code only. *)
Lemma updateCountry_over_any_client (DB : Type) (repo : PrismaClient DB)
  (i : Z) (data : UpdateCountryDto) (db db' : DB) (e : Exn) :
  country_update (ById i) (update_of_dto data) db = (db', Rejected e) ->
  updateCountry sanitizeCountry i data db =
  (db', Rejected
          (match e with
           | PrismaClientKnownRequestError code =>
               if (code =? "P2010")%string
               then NotFoundError (msg_update_not_found i)
               else e
           | _ => e
           end)).
Proof.
  intros H. run_service. rewrite H. unfold updateCountry_catch.
  destruct e as [m | m | code | m]; try reflexivity.
  destruct (code =? "P2010")%string; reflexivity.
Qed.

(** No Country with this id: the rejection of the store comes through as
    it is. *)
Lemma updateCountry_absent (db : Database) (i : Z) (data : UpdateCountryDto) :
  (forall c, In c (countries db) -> id c <> i) ->
  updateCountry sanitizeCountry i data db = (db, Rejected P2025).
Proof.
  intros Hab.
  rewrite (updateCountry_over_any_client Database prisma i data db db P2025).
  - reflexivity.
  - apply absent_update. exact Hab.
Qed.

Lemma updateCountry_rejections (db db' : Database) (i : Z)
  (data : UpdateCountryDto) (e : Exn) :
  updateCountry sanitizeCountry i data db = (db', Rejected e) ->
  e = P2025 \/ e = P2002.
Proof.
  run_service. unfold prisma_country_update.
  destruct (find _ _) as [c |]; simpl;
    try destruct (taken _ _ _); simpl;
    intros H; inversion H; auto.
Qed.

(** On the Prisma store [update] is never rejected with [NotFoundError]. *)
Lemma updateCountry_never_NotFoundError (db db' : Database) (i : Z)
  (data : UpdateCountryDto) (msg : string) :
  updateCountry sanitizeCountry i data db
  <> (db', Rejected (NotFoundError msg)).
Proof.
  intros H. apply updateCountry_rejections in H.
  destruct H as [H | H]; discriminate H.
Qed.

(** [update] looks the Country up by id alone: the [deleted] flag plays no
    part, and the flag is left as it was. *)
Lemma updateCountry_ignores_deleted (db : Database) (c : Country)
  (data : UpdateCountryDto) :
  consistent db -> In c (countries db) ->
  let c' := apply_update (update_of_dto data) c in
  taken (name c') (abbreviation c') (other_rows c (countries db)) = false ->
  updateCountry sanitizeCountry (id c) data db =
  ({| countries := replace_row c' (countries db);
      visits := visits db;
      nextCountryId := nextCountryId db |},
   Fulfilled (sanitizeCountry c'))
  /\ deleted c' = deleted c.
Proof.
  intros Hc Hin c' T. split; [| reflexivity].
  run_service. rewrite (update_row db c _ Hc Hin T). reflexivity.
Qed.

(** *** Upserting *)

Lemma name_free_spec (data : CreateCountryDto) (db : Database) :
  name_free data db = true <->
  forall c, In c (countries db) ->
            abbreviation c = dto_abbreviation data \/ name c <> dto_name data.
Proof.
  unfold name_free. rewrite forallb_forall. split; intros H c Hin.
  - specialize (H c Hin). apply orb_true_iff in H.
    rewrite negb_true_iff, string_eqb_true, string_eqb_false in H. exact H.
  - apply orb_true_iff.
    rewrite negb_true_iff, string_eqb_true, string_eqb_false. auto.
Qed.

Lemma bool_eq_negb (b1 b2 : bool) :
  (b1 = false <-> b2 = true) -> b1 = negb b2.
Proof. destruct b1, b2; simpl; intros [H1 H2]; auto; symmetry; auto. Qed.

Lemma taken_others_name_free (db : Database) (c : Country)
  (data : CreateCountryDto) :
  consistent db -> In c (countries db) ->
  abbreviation c = dto_abbreviation data ->
  taken (dto_name data) (dto_abbreviation data) (other_rows c (countries db))
  = negb (name_free data db).
Proof.
  intros Hc Hin Ea. apply bool_eq_negb.
  rewrite taken_false, name_free_spec. split.
  - intros H o Ho. destruct (Z.eq_dec (id o) (id c)) as [E | E].
    + left. rewrite (id_unique db o c Hc Ho Hin E). exact Ea.
    + right. apply H. apply In_other_rows. auto.
  - intros H o Ho. apply In_other_rows in Ho. destruct Ho as [Ho Hne].
    assert (Hab : abbreviation o <> dto_abbreviation data).
    { intros E. apply Hne. f_equal.
      apply (abbreviation_unique db o c Hc Ho Hin). congruence. }
    split; [| exact Hab].
    destruct (H o Ho) as [E | E]; [contradiction | exact E].
Qed.

Lemma taken_all_name_free (db : Database) (data : CreateCountryDto) :
  (forall o, In o (countries db) ->
             abbreviation o <> dto_abbreviation data) ->
  taken (dto_name data) (dto_abbreviation data) (countries db)
  = negb (name_free data db).
Proof.
  intros Hab. apply bool_eq_negb.
  rewrite taken_false, name_free_spec. split.
  - intros H o Ho. right. apply (H o Ho).
  - intros H o Ho. split; [| apply (Hab o Ho)].
    destruct (H o Ho) as [E | E]; [| exact E].
    exfalso. apply (Hab o Ho E).
Qed.

Lemma upsertCountry_updates (db : Database) (c : Country)
  (data : CreateCountryDto) :
  consistent db -> In c (countries db) ->
  abbreviation c = dto_abbreviation data ->
  upsertCountry sanitizeCountry data db =
  if name_free data db
  then ({| countries := replace_row (apply_update (update_of_create data) c)
                                    (countries db);
           visits := visits db;
           nextCountryId := nextCountryId db |},
        Fulfilled (sanitizeCountry (apply_update (update_of_create data) c)))
  else (db, Rejected P2002).
Proof.
  intros Hc Hin Ea. run_service.
  unfold prisma_country_upsert, prisma_country_update.
  rewrite <- Ea, (find_by_abbreviation db c Hc Hin). simpl.
  rewrite (taken_others_name_free db c data Hc Hin Ea).
  destruct (name_free data db); reflexivity.
Qed.

Lemma upsertCountry_creates (db : Database) (data : CreateCountryDto) :
  (forall o, In o (countries db) ->
             abbreviation o <> dto_abbreviation data) ->
  upsertCountry sanitizeCountry data db =
  if name_free data db
  then ({| countries := countries db ++ [new_row (nextCountryId db) data];
           visits := visits db;
           nextCountryId := nextCountryId db + 1 |},
        Fulfilled (sanitizeCountry (new_row (nextCountryId db) data)))
  else (db, Rejected P2002).
Proof.
  intros Hab. run_service.
  unfold prisma_country_upsert, prisma_country_create.
  rewrite (proj2 (find_by_abbreviation_None _ _) Hab).
  rewrite (taken_all_name_free db data Hab).
  destruct (name_free data db); reflexivity.
Qed.

Lemma with_abbreviation_single (db : Database) (c : Country) :
  consistent db -> In c (countries db) ->
  with_abbreviation (abbreviation c) db = [c].
Proof.
  intros [_ [_ [Ha _]]]. unfold with_abbreviation.
  induction (countries db) as [| r rows IH]; simpl; [contradiction |].
  inversion Ha as [| ? ? Hfresh Ha']; subst. intros [-> | Hin].
  - rewrite String.eqb_refl. f_equal.
    assert (H : forall x, In x rows ->
                  (abbreviation x =? abbreviation c)%string = false).
    { intros x Hx. apply string_eqb_false. intros E. apply Hfresh.
      rewrite <- E. apply in_map. exact Hx. }
    clear -H. induction rows as [| x rows IHr]; simpl; [reflexivity |].
    rewrite (H x (or_introl eq_refl)). apply IHr.
    intros y Hy. apply H. right. exact Hy.
  - destruct (abbreviation r =? abbreviation c)%string eqn:E.
    + apply string_eqb_true in E. exfalso. apply Hfresh. rewrite E.
      apply in_map. exact Hin.
    + apply IH; assumption.
Qed.

Lemma upsertCountry_consistent (db db' : Database) (data : CreateCountryDto)
  (r : Settled CountryOutputDto) :
  consistent db -> upsertCountry sanitizeCountry data db = (db', r) ->
  consistent db'.
Proof.
  intros Hc. run_service.
  destruct (prisma_country_upsert _ _ _ db) as [d [c | e]] eqn:U;
    intros H; inversion H; subst;
    apply (upsert_consistent _ _ _ _ _ _ Hc U).
Qed.

(** A Country that already holds the fields of [data] is found and
    written over with the same values: nothing changes. *)
Lemma upsertCountry_same_row (db : Database) (c : Country)
  (data : CreateCountryDto) :
  consistent db -> In c (countries db) ->
  abbreviation c = dto_abbreviation data ->
  name c = dto_name data -> details c = dto_details data ->
  upsertCountry sanitizeCountry data db = (db, Fulfilled (sanitizeCountry c)).
Proof.
  intros Hc Hin Ea En Ed.
  rewrite (upsertCountry_updates db c data Hc Hin Ea).
  assert (Hfree : name_free data db = true).
  { pose proof (taken_others_name_free db c data Hc Hin Ea) as T.
    rewrite <- En, <- Ea in T.
    rewrite (others_keep_clear db c Hc Hin) in T.
    destruct (name_free data db); [reflexivity | discriminate T]. }
  rewrite Hfree.
  assert (Hsame : apply_update (update_of_create data) c = c).
  { destruct c; simpl in *; subst; reflexivity. }
  rewrite Hsame. destruct Hc as [Hid _].
  rewrite (replace_row_same c (countries db) Hid Hin).
  destruct db; reflexivity.
Qed.

(** What a fulfilled upsert leaves behind: the row it answers with is in
    the store, holds the fields of [data], and the store is consistent. *)
Lemma upsertCountry_fulfilled (db db1 : Database) (data : CreateCountryDto)
  (out1 : CountryOutputDto) :
  consistent db ->
  upsertCountry sanitizeCountry data db = (db1, Fulfilled out1) ->
  exists c1,
    out1 = sanitizeCountry c1 /\ In c1 (countries db1)
    /\ abbreviation c1 = dto_abbreviation data
    /\ name c1 = dto_name data /\ details c1 = dto_details data
    /\ name_free data db = true
    /\ (forall c, In c (countries db) ->
          abbreviation c = dto_abbreviation data ->
          id c1 = id c /\ deleted c1 = deleted c
          /\ List.length (countries db1) = List.length (countries db))
    /\ ((forall c, In c (countries db) ->
           abbreviation c <> dto_abbreviation data) ->
        id c1 = nextCountryId db /\ deleted c1 = false
        /\ countries db1 = countries db ++ [c1]).
Proof.
  intros Hc H.
  destruct (find (unique_matches (ByAbbreviation (dto_abbreviation data)))
                 (countries db)) as [c |] eqn:F.
  - apply (find_key_Some abbreviation String.eqb string_eqb_true) in F.
    destruct F as [Hin Ea].
    rewrite (upsertCountry_updates db c data Hc Hin Ea) in H.
    destruct (name_free data db); [| discriminate H].
    inversion H; subst. clear H.
    exists (apply_update (update_of_create data) c).
    split; [reflexivity |].
    split; [simpl; apply In_replace_row; left; split;
            [reflexivity | exists c; auto] |].
    do 4 (split; [reflexivity |]).
    split.
    + intros c0 Hin0 Ea0.
      assert (c0 = c)
        by (apply (abbreviation_unique db); congruence).
      subst c0. simpl. unfold replace_row. rewrite length_map. auto.
    + intros Hab. exfalso. apply (Hab c Hin Ea).
  - pose proof (proj1 (find_by_abbreviation_None _ _) F) as Hab.
    rewrite (upsertCountry_creates db data Hab) in H.
    destruct (name_free data db); [| discriminate H].
    inversion H; subst. clear H.
    exists (new_row (nextCountryId db) data).
    split; [reflexivity |].
    split; [simpl; apply in_or_app; right; left; reflexivity |].
    do 4 (split; [reflexivity |]).
    split.
    + intros c Hin Ea. exfalso. apply (Hab c Hin Ea).
    + intros _. simpl. auto.
Qed.



(** C5. On a consistent store, when the record's abbreviation is that of
    a soft-deleted Country [c]: a fulfilled upsert writes the name, the
    abbreviation and the details of the record over [c] and nothing else,
    so the row keeps its id and stays soft-deleted, and the other rows and
    the Visits are untouched; a rejected upsert changes nothing.  Either
    way the one Country stored under the abbreviation afterwards has the
    id of [c] and [deleted = true]. *)
Theorem upsert_keeps_soft_deleted (db : Database) (c : Country)
  (data : CreateCountryDto) :
  consistent db -> In c (countries db) ->
  abbreviation c = dto_abbreviation data -> deleted c = true ->
  let c' := {| id := id c;
               name := dto_name data;
               abbreviation := dto_abbreviation data;
               details := dto_details data;
               deleted := true |} in
  (name_free data db = true ->
     exists db',
       upsertCountry sanitizeCountry data db
         = (db', Fulfilled (sanitizeCountry c'))
       /\ In c' (countries db')
       /\ (forall x, id x <> id c ->
             (In x (countries db') <-> In x (countries db)))
       /\ visits db' = visits db)
  /\ (name_free data db = false ->
        upsertCountry sanitizeCountry data db = (db, Rejected P2002))
  /\ (forall db' r,
        upsertCountry sanitizeCountry data db = (db', r) ->
        exists x,
          with_abbreviation (dto_abbreviation data) db' = [x]
          /\ id x = id c /\ deleted x = true).
Proof.
  intros Hc Hin Ea D c'.
  assert (Hc' : apply_update (update_of_create data) c = c').
  { unfold apply_update, c'. simpl. rewrite D. reflexivity. }
  pose proof (upsertCountry_updates db c data Hc Hin Ea) as Hrun.
  rewrite Hc' in Hrun.
  assert (Hin' : In c' (replace_row c' (countries db))).
  { apply In_replace_row. left. split; [reflexivity | exists c; auto]. }
  split; [| split].
  - intros Hfree. rewrite Hfree in Hrun. eexists. split; [exact Hrun |].
    simpl. split; [exact Hin' |]. split; [| reflexivity].
    intros x Hne. rewrite In_replace_row. simpl. split.
    + intros [[-> _] | [Hx _]]; [exfalso; apply Hne; reflexivity | exact Hx].
    + intros Hx. right. auto.
  - intros Hfree. rewrite Hfree in Hrun. exact Hrun.
  - intros db' r H.
    pose proof (upsertCountry_consistent db db' data r Hc H) as Hcons.
    rewrite Hrun in H. destruct (name_free data db); inversion H; subst.
    + exists c'. split; [| auto].
      apply (with_abbreviation_single _ c' Hcons). exact Hin'.
    + exists c. split; [| auto]. rewrite <- Ea.
      apply with_abbreviation_single; assumption.
Qed.

(** *** Creating *)

Lemma createCountry_run (db : Database) (data : CreateCountryDto) :
  createCountry sanitizeCountry data db =
  if taken (dto_name data) (dto_abbreviation data) (countries db)
  then (db, Rejected (AlreadyExistsError (msg_already_exists data)))
  else ({| countries := countries db ++ [new_row (nextCountryId db) data];
           visits := visits db;
           nextCountryId := nextCountryId db + 1 |},
        Fulfilled (sanitizeCountry (new_row (nextCountryId db) data))).
Proof.
  run_service. unfold prisma_country_create.
  destruct (taken _ _ _); reflexivity.
Qed.

(** C8. The catch block of [create] maps the code [P2002], and only it,
    to [AlreadyExistsError]: over any client, a rejection of the store
    call comes out as [AlreadyExistsError] when it is the known request
    error [P2002] and as the value itself otherwise.  On a consistent
    Prisma store, after a fulfilled [create] of a record, every [create]
    of a record with the same abbreviation or the same name is rejected
    with [AlreadyExistsError] and changes nothing, whereas [upsert] of the
    record just created is fulfilled with the same output and adds no
    row, and [upsert] of any record with that abbreviation whose name no
    other Country holds is fulfilled by updating the row just created. *)
Theorem create_twice_AlreadyExists :
  (forall (DB : Type) (repo : PrismaClient DB) (data : CreateCountryDto)
          (db db' : DB) (e : Exn),
      country_create data db = (db', Rejected e) ->
      createCountry sanitizeCountry data db
      = (db', Rejected
                (match e with
                 | PrismaClientKnownRequestError code =>
                     if (code =? "P2002")%string
                     then AlreadyExistsError (msg_already_exists data)
                     else e
                 | _ => e
                 end)))
  /\ (forall (db db1 : Database) (d1 : CreateCountryDto)
             (out1 : CountryOutputDto),
        consistent db ->
        createCountry sanitizeCountry d1 db = (db1, Fulfilled out1) ->
        (forall d2,
            dto_abbreviation d2 = dto_abbreviation d1
            \/ dto_name d2 = dto_name d1 ->
            createCountry sanitizeCountry d2 db1
            = (db1, Rejected (AlreadyExistsError (msg_already_exists d2))))
        /\ upsertCountry sanitizeCountry d1 db1 = (db1, Fulfilled out1)
        /\ (forall d2,
              dto_abbreviation d2 = dto_abbreviation d1 ->
              name_free d2 db1 = true ->
              exists db2 c2,
                upsertCountry sanitizeCountry d2 db1
                = (db2, Fulfilled (sanitizeCountry c2))
                /\ id c2 = nextCountryId db
                /\ name c2 = dto_name d2 /\ details c2 = dto_details d2
                /\ List.length (countries db2)
                   = List.length (countries db1))).
Proof.
  split.
  - intros DB repo data db db' e H. run_service. rewrite H.
    unfold createCountry_catch.
    destruct e as [m | m | code | m]; try reflexivity.
    destruct (code =? "P2002")%string; reflexivity.
  - intros db db1 d1 out1 Hc H.
    rewrite createCountry_run in H.
    destruct (taken _ _ (countries db)) eqn:T; [discriminate H |].
    inversion H; subst. clear H.
    set (c1 := new_row (nextCountryId db) d1).
    set (db1 := {| countries := countries db ++ [c1];
                   visits := visits db;
                   nextCountryId := nextCountryId db + 1 |}).
    assert (Hc1 : consistent db1).
    { apply (create_consistent d1 db db1 (Fulfilled c1) Hc).
      unfold prisma_country_create. rewrite T. reflexivity. }
    assert (Hin1 : In c1 (countries db1))
      by (simpl; apply in_or_app; right; left; reflexivity).
    split; [| split].
    + intros d2 Hsame. rewrite createCountry_run.
      replace (taken (dto_name d2) (dto_abbreviation d2) (countries db1))
        with true; [reflexivity |].
      symmetry. apply taken_true. exists c1. split; [exact Hin1 |].
      simpl. destruct Hsame as [E | E]; rewrite E; auto.
    + apply upsertCountry_same_row; auto.
    + intros d2 Ea Hfree.
      assert (Ea1 : abbreviation c1 = dto_abbreviation d2)
        by (simpl; congruence).
      rewrite (upsertCountry_updates db1 c1 d2 Hc1 Hin1 Ea1), Hfree.
      eexists. eexists. split; [reflexivity |].
      simpl. unfold replace_row. rewrite length_map. auto.
Qed.

(** *** Synchronizing *)

Lemma first_rejection_None {A : Type} (log : list (nat * Settled A)) :
  first_rejection log = None <-> forall k e, ~ In (k, Rejected e) log.
Proof.
  induction log as [| [j [a | e0]] log IH]; simpl.
  - split; [intros _ k e [] | reflexivity].
  - rewrite IH. split.
    + intros H k e [E | Hin]; [discriminate E | apply (H k e Hin)].
    + intros H k e Hin. apply (H k e). right. exact Hin.
  - split; [discriminate |].
    intros H. exfalso. apply (H j e0). left. reflexivity.
Qed.





Lemma upsertCountry_keeps_abbreviations (db db' : Database)
  (data : CreateCountryDto) (r : Settled CountryOutputDto) (a : string) :
  consistent db -> upsertCountry sanitizeCountry data db = (db', r) ->
  (exists c, In c (countries db) /\ abbreviation c = a) ->
  exists c, In c (countries db') /\ abbreviation c = a.
Proof.
  intros Hc H [x [Hx Ex]].
  destruct (find (unique_matches (ByAbbreviation (dto_abbreviation data)))
                 (countries db)) as [c |] eqn:F.
  - apply (find_key_Some abbreviation String.eqb string_eqb_true) in F.
    destruct F as [Hin Ea].
    rewrite (upsertCountry_updates db c data Hc Hin Ea) in H.
    destruct (name_free data db); inversion H; subst; [| exists x; auto].
    simpl. destruct (Z.eq_dec (id x) (id c)) as [E | E].
    + exists (apply_update (update_of_create data) c). split.
      * apply In_replace_row. left. split; [reflexivity | exists c; auto].
      * simpl. rewrite (id_unique db x c Hc Hx Hin E). auto.
    + exists x. split; [| reflexivity].
      apply In_replace_row. right. auto.
  - pose proof (proj1 (find_by_abbreviation_None _ _) F) as Hab.
    rewrite (upsertCountry_creates db data Hab) in H.
    destruct (name_free data db); inversion H; subst; exists x;
      simpl; auto using in_or_app.
Qed.

(** Whatever the schedule, a batch of upserts keeps the store consistent,
    forgets no abbreviation, runs the promise at each scheduled position
    that exists, and every fulfilled one answers with a Country that holds
    the fields of its record, whose abbreviation is still stored at the
    end. *)
Lemma settle_upserts (ds : list CreateCountryDto) (schedule : list nat) :
  forall (db db' : Database) (log : list (nat * Settled CountryOutputDto)),
    consistent db ->
    settle schedule (map (upsertCountry sanitizeCountry) ds) db = (db', log) ->
    consistent db'
    /\ (forall a, (exists c, In c (countries db) /\ abbreviation c = a) ->
                  exists c, In c (countries db') /\ abbreviation c = a)
    /\ map fst log = filter (fun k => (k <? List.length ds)%nat) schedule
    /\ Forall (fun kr =>
                 exists d, nth_error ds (fst kr) = Some d
                   /\ forall out, snd kr = Fulfilled out ->
                        (exists c, out = sanitizeCountry c
                                   /\ abbreviation c = dto_abbreviation d
                                   /\ name c = dto_name d
                                   /\ details c = dto_details d)
                        /\ exists c, In c (countries db')
                                     /\ abbreviation c = dto_abbreviation d)
              log.
Proof.
  induction schedule as [| k rest IH]; simpl; intros db db' log Hc H.
  - inversion H; subst. split; [exact Hc |]. split; [auto |].
    split; [reflexivity | constructor].
  - rewrite nth_error_map in H.
    destruct (nth_error ds k) as [d |] eqn:N; simpl in H.
    + assert (Hk : (k <? List.length ds)%nat = true).
      { apply Nat.ltb_lt. apply nth_error_Some. congruence. }
      rewrite Hk.
      destruct (upsertCountry sanitizeCountry d db) as [db1 r] eqn:U.
      destruct (settle rest _ db1) as [db2 log'] eqn:S.
      inversion H; subst. clear H.
      pose proof (upsertCountry_consistent db db1 d r Hc U) as Hc1.
      destruct (IH db1 db' log' Hc1 S) as [Hc' [Hkeep [Hfst Hall]]].
      split; [exact Hc' |]. split; [| split].
      * intros a Ha. apply Hkeep.
        apply (upsertCountry_keeps_abbreviations db db1 d r a Hc U Ha).
      * simpl. f_equal. exact Hfst.
      * constructor; [| exact Hall]. simpl. exists d. split; [exact N |].
        intros out ->.
        destruct (upsertCountry_fulfilled db db1 d out Hc U)
          as [c1 [-> [Hin1 [Ea [En [Ed _]]]]]].
        split; [exists c1; auto |].
        apply Hkeep. exists c1. auto.
    + assert (Hk : (k <? List.length ds)%nat = false).
      { apply Nat.ltb_ge. apply nth_error_None. exact N. }
      rewrite Hk. apply (IH db db' log Hc H).
Qed.


Lemma upsertCountriesFromAPI_run (schedule : list nat) (db db' : Database)
  (listing : list RawCountry) (log : list (nat * Settled CountryOutputDto)) :
  getData countriesApiService EmptyString = Fulfilled listing ->
  settle schedule (map (upsertCountry sanitizeCountry)
                       (map sanitizeCountryAPI listing)) db = (db', log) ->
  upsertCountriesFromAPI countriesApiService sanitizeCountryAPI
    sanitizeCountry schedule db
  = (db', match first_rejection log with
          | Some e => Rejected e
          | None => Fulfilled (values (List.length listing) log)
          end).
Proof.
  intros Hget S.
  unfold upsertCountriesFromAPI, fetch, bind, ret, Promise_all.
  rewrite Hget, S, !length_map. destruct (first_rejection log); reflexivity.
Qed.


(** *** Every call of the service keeps the store consistent *)

Lemma getCountry_keeps_store (db db' : Database) (i : Z)
  (r : Settled CountryOutputDto) :
  getCountry sanitizeCountry i db = (db', r) -> db' = db.
Proof.
  run_service. unfold prisma_country_findFirst.
  destruct (find _ _); intros H; inversion H; reflexivity.
Qed.

Lemma getCountries_keeps_store (db db' : Database)
  (r : Settled (list CountryOutputDto)) :
  getCountries sanitizeCountry db = (db', r) -> db' = db.
Proof.
  rewrite getCountries_run. intros H. inversion H. reflexivity.
Qed.

Lemma createCountry_consistent (db db' : Database) (data : CreateCountryDto)
  (r : Settled CountryOutputDto) :
  consistent db -> createCountry sanitizeCountry data db = (db', r) ->
  consistent db'.
Proof.
  intros Hc. rewrite createCountry_run.
  destruct (taken _ _ _) eqn:T; intros H; inversion H; subst; [exact Hc |].
  apply (create_consistent data db _ (Fulfilled (new_row (nextCountryId db) data))
           Hc).
  unfold prisma_country_create. rewrite T. reflexivity.
Qed.

Lemma updateCountry_consistent (db db' : Database) (i : Z)
  (data : UpdateCountryDto) (r : Settled CountryOutputDto) :
  consistent db -> updateCountry sanitizeCountry i data db = (db', r) ->
  consistent db'.
Proof.
  intros Hc. run_service.
  destruct (prisma_country_update (ById i) (update_of_dto data) db)
    as [d [c | e]] eqn:U; simpl.
  - intros H. inversion H; subst. apply (update_consistent _ _ _ _ _ Hc U).
  - pose proof (update_consistent _ _ _ _ _ Hc U) as Hd.
    unfold updateCountry_catch, throw.
    destruct e as [m | m | code | m]; try destruct (code =? "P2010")%string;
      intros H; inversion H; subst; exact Hd.
Qed.

Lemma deleteCountry_consistent (db db' : Database) (i : Z)
  (hard : option bool) (r : Settled CountryOutputDto) :
  consistent db -> deleteCountry sanitizeCountry i hard db = (db', r) ->
  consistent db'.
Proof.
  intros Hc. run_service.
  destruct hard as [[|] |].
  - destruct (prisma_country_delete (ById i) db) as [d [c | e]] eqn:D;
      intros H; inversion H; subst; apply (delete_consistent _ _ _ _ Hc D).
  - destruct (prisma_country_update (ById i) mark_deleted db)
      as [d [c | e]] eqn:U; simpl; intros H; inversion H; subst;
      pose proof (update_consistent _ _ _ _ _ Hc U) as Hd;
      [destruct Hd as [? [? [? ?]]]; repeat split; assumption | exact Hd].
  - destruct (prisma_country_update (ById i) mark_deleted db)
      as [d [c | e]] eqn:U; simpl; intros H; inversion H; subst;
      pose proof (update_consistent _ _ _ _ _ Hc U) as Hd;
      [destruct Hd as [? [? [? ?]]]; repeat split; assumption | exact Hd].
Qed.

End OnThePrismaStore.

(** ** Concrete runs *)

Ltac sample_consistent :=
  repeat split; simpl; repeat constructor; simpl;
  intuition (discriminate || lia).

(** C1. [update] of an id that no Country has: the store rejects the call
    with the known request error [P2025]; the catch block of [updateCountry]
    looks for [P2010], so the rejection reaches the caller as it is and no
    [NotFoundError] is raised. *)
Theorem updateCountry_absent_id_unmapped :
  find (unique_matches (ById 7)) (countries Sample.db0) = None
  /\ updateCountry Sample.sanitizeCountry 7 Sample.rename Sample.db0
     = (Sample.db0, Rejected (PrismaClientKnownRequestError "P2025"))
  /\ updateCountry Sample.sanitizeCountry 7 Sample.rename Sample.db0
     <> (Sample.db0, Rejected (NotFoundError (msg_update_not_found 7))).
Proof.
  split; [reflexivity |]. split; [reflexivity |]. discriminate.
Qed.

(** The soft-deleted France of [db1] is renamed by [update] and stays
    soft-deleted. *)
Example updateCountry_soft_deleted_row :
  updateCountry Sample.sanitizeCountry 2 Sample.rename Sample.db1
  = ({| countries :=
          [Sample.spain;
           {| id := 2; name := "Espana"; abbreviation := "FR";
              details := "Paris"; deleted := true |}];
        visits := visits Sample.db1;
        nextCountryId := 3 |},
     Fulfilled {| Sample.out_id := 2; Sample.out_name := "Espana";
                  Sample.out_abbreviation := "FR";
                  Sample.out_details := "Paris" |}).
Proof. reflexivity. Qed.

(** The sample listing, the third record reaching the store first. *)
Example sync_sample :
  upsertCountriesFromAPI Sample.api Sample.sanitizeCountryAPI
    Sample.sanitizeCountry [2; 0; 1]%nat Sample.db0
  = ({| countries :=
          [Sample.spain; Sample.france;
           {| id := 3; name := "Italy"; abbreviation := "IT";
              details := "Roma"; deleted := false |}];
        visits := visits Sample.db0;
        nextCountryId := 4 |},
     Fulfilled
       [ {| Sample.out_id := 3; Sample.out_name := "Italy";
            Sample.out_abbreviation := "IT"; Sample.out_details := "Roma" |};
         {| Sample.out_id := 1; Sample.out_name := "Spain";
            Sample.out_abbreviation := "ES";
            Sample.out_details := "Madrid" |};
         {| Sample.out_id := 3; Sample.out_name := "Italy";
            Sample.out_abbreviation := "IT";
            Sample.out_details := "Rome" |} ]).
Proof. reflexivity. Qed.

(** An upsert that shares only the name with a stored Country takes the
    create path and is rejected by the store. *)
Example upsert_name_held_elsewhere :
  upsertCountry Sample.sanitizeCountry Sample.italia_dto Sample.db0_italy
  = (Sample.db0_italy, Rejected P2002).
Proof. reflexivity. Qed.



Lemma soft_delete_cascades_witness :
  consistent Sample.db0 /\ In Sample.spain (countries Sample.db0)
  /\ exists db2,
       deleteCountry Sample.sanitizeCountry 1 None Sample.db0
       = (db2, Fulfilled (Sample.sanitizeCountry
                            (apply_update mark_deleted Sample.spain)))
       /\ (forall v, In v (visits db2) -> countryId v = 1 ->
             visit_deleted v = true)
       /\ (forall x, In x (alive db2) -> id x <> 1).
Proof.
  assert (Hc : consistent Sample.db0) by sample_consistent.
  assert (Hin : In Sample.spain (countries Sample.db0))
    by (left; reflexivity).
  split; [exact Hc |]. split; [exact Hin |].
  destruct (soft_delete_cascades Sample.sanitizeCountry Sample.db0
              Sample.spain None Hc Hin (or_introl eq_refl))
    as (db1 & db2 & n & _ & _ & H3 & _ & _ & _ & _ & _ & _ & _ & _ & _ & H13
        & _ & _ & H16 & _).
  exists db2. split; [exact H3 |]. split; [exact H13 | exact H16].
Defined.

Lemma upsert_keeps_soft_deleted_witness :
  consistent Sample.db1 /\ In Sample.france_gone (countries Sample.db1)
  /\ deleted Sample.france_gone = true
  /\ name_free Sample.france_dto Sample.db1 = true
  /\ exists db',
       upsertCountry Sample.sanitizeCountry Sample.france_dto Sample.db1
       = (db', Fulfilled (Sample.sanitizeCountry Sample.france_resynced))
       /\ In Sample.france_resynced (countries db')
       /\ visits db' = visits Sample.db1.
Proof.
  assert (Hc : consistent Sample.db1) by sample_consistent.
  assert (Hin : In Sample.france_gone (countries Sample.db1))
    by (right; left; reflexivity).
  split; [exact Hc |]. split; [exact Hin |].
  split; [reflexivity |]. split; [reflexivity |].
  destruct (upsert_keeps_soft_deleted Sample.sanitizeCountry Sample.db1
              Sample.france_gone Sample.france_dto Hc Hin eq_refl eq_refl)
    as [H _].
  destruct (H eq_refl) as [db' [H1 [H2 [_ H4]]]].
  exists db'. split; [exact H1 |]. split; [exact H2 | exact H4].
Defined.

Lemma hard_delete_no_cascade_witness :
  consistent Sample.db0 /\ In Sample.spain (countries Sample.db0)
  /\ exists db',
       deleteCountry Sample.sanitizeCountry 1 (Some true) Sample.db0
       = (db', Fulfilled (Sample.sanitizeCountry Sample.spain))
       /\ ~ In Sample.spain (countries db')
       /\ visits db' = visits Sample.db0.
Proof.
  assert (Hc : consistent Sample.db0) by sample_consistent.
  assert (Hin : In Sample.spain (countries Sample.db0))
    by (left; reflexivity).
  split; [exact Hc |]. split; [exact Hin |].
  destruct (hard_delete_no_cascade Sample.sanitizeCountry Sample.db0
              Sample.spain Hc Hin) as [db' [H1 [H2 [_ [_ [H5 _]]]]]].
  exists db'. split; [exact H1 |]. split; [exact H2 | exact H5].
Defined.

Lemma getCountry_only_alive_witness :
  consistent Sample.db1
  /\ getCountry Sample.sanitizeCountry 2 Sample.db1
     = (Sample.db1, Rejected (NotFoundError (msg_get_not_found 2)))
  /\ getCountry Sample.sanitizeCountry 1 Sample.db1
     = (Sample.db1, Fulfilled (Sample.sanitizeCountry Sample.spain)).
Proof.
  assert (Hc : consistent Sample.db1) by sample_consistent.
  split; [exact Hc |].
  split.
  - destruct (getCountry_only_alive Sample.sanitizeCountry Sample.db1 2 Hc)
      as [_ [_ [H _]]].
    apply H. right. exists Sample.france_gone.
    split; [right; left; reflexivity |]. split; reflexivity.
  - destruct (getCountry_only_alive Sample.sanitizeCountry Sample.db1 1 Hc)
      as [H _].
    apply H; [left; reflexivity | reflexivity | reflexivity].
Defined.

Lemma create_twice_AlreadyExists_witness :
  consistent Sample.db0
  /\ createCountry Sample.sanitizeCountry Sample.italy_dto Sample.db0
     = (Sample.db0_italy, Fulfilled (Sample.sanitizeCountry Sample.italy))
  /\ createCountry Sample.sanitizeCountry Sample.italy_dto Sample.db0_italy
     = (Sample.db0_italy,
        Rejected (AlreadyExistsError (msg_already_exists Sample.italy_dto)))
  /\ createCountry Sample.sanitizeCountry Sample.italia_dto Sample.db0_italy
     = (Sample.db0_italy,
        Rejected (AlreadyExistsError (msg_already_exists Sample.italia_dto)))
  /\ upsertCountry Sample.sanitizeCountry Sample.italy_dto Sample.db0_italy
     = (Sample.db0_italy, Fulfilled (Sample.sanitizeCountry Sample.italy)).
Proof.
  assert (Hc : consistent Sample.db0) by sample_consistent.
  split; [exact Hc |]. split; [reflexivity |].
  destruct (create_twice_AlreadyExists Sample.sanitizeCountry) as [_ H].
  destruct (H Sample.db0 Sample.db0_italy Sample.italy_dto
              (Sample.sanitizeCountry Sample.italy) Hc eq_refl)
    as [H1 [H2 _]].
  split; [apply H1; left; reflexivity |].
  split; [apply H1; right; reflexivity | exact H2].
Defined.

Lemma deleteCountry_rethrows_witness :
  (forall c, In c (countries Sample.db0) -> id c <> 9)
  /\ deleteCountry Sample.sanitizeCountry 9 (Some true) Sample.db0
     = (Sample.db0, Rejected P2025)
  /\ deleteCountry Sample.sanitizeCountry 9 None Sample.db0
     = (Sample.db0, Rejected P2025).
Proof.
  assert (Hab : forall c, In c (countries Sample.db0) -> id c <> 9).
  { simpl. intros c [<- | [<- | []]]; discriminate. }
  split; [exact Hab |].
  destruct (deleteCountry_rethrows Sample.sanitizeCountry) as [_ [H _]].
  split; apply H; exact Hab.
Defined.

Lemma getCountries_alive_or_NotFound_witness :
  getCountries Sample.sanitizeCountry Sample.db1
  = (Sample.db1, Fulfilled [Sample.sanitizeCountry Sample.spain])
  /\ getCountries Sample.sanitizeCountry empty_db
     = (empty_db, Rejected (NotFoundError msg_list_not_found)).
Proof.
  split.
  - destruct (getCountries_alive_or_NotFound Sample.sanitizeCountry Sample.db1)
      as [H _].
    exact H.
  - destruct (getCountries_alive_or_NotFound Sample.sanitizeCountry empty_db)
      as [H _].
    exact H.
Defined.

(** * Further properties of the service *)

(** ** Over any client *)

Section OverAnyClient.
Context {DB : Type} {repo : PrismaClient DB}.
Context {RawCountry CountryOutputDto : Type}.
Variable countriesApiService : ExternalService RawCountry.
Variable sanitizeCountryAPI : RawCountry -> CreateCountryDto.
Variable sanitizeCountry : Country -> CountryOutputDto.

Lemma settle_nothing {A : Type} (schedule : list nat) (db : DB) :
  settle schedule (@nil (Promise DB A)) db = (db, []).
Proof.
  induction schedule as [| k rest IH]; simpl; [reflexivity |].
  destruct k; simpl; exact IH.
Qed.

(** X1. [getExternalCountries] makes no store call: whatever the client,
    the store is left as it is; when the adapter delivers a listing the
    call is fulfilled with one sanitized record per raw record, in the
    order of the listing (the k-th output is the sanitized k-th record);
    when the adapter throws, that value comes through as it is.  The
    synchronization upserts exactly the records this call yields. *)
Theorem getExternalCountries_sanitizes_listing (db : DB) :
  (forall listing,
      getData countriesApiService EmptyString = Fulfilled listing ->
      exists outs,
        getExternalCountries countriesApiService sanitizeCountryAPI db
        = (db, Fulfilled outs)
        /\ List.length outs = List.length listing
        /\ forall k, nth_error outs k
                     = option_map sanitizeCountryAPI (nth_error listing k))
  /\ (forall e,
        getData countriesApiService EmptyString = Rejected e ->
        getExternalCountries countriesApiService sanitizeCountryAPI db
        = (db, Rejected e))
  /\ (forall schedule,
        upsertCountriesFromAPI countriesApiService sanitizeCountryAPI
          sanitizeCountry schedule db
        = bind (getExternalCountries countriesApiService sanitizeCountryAPI)
               (fun records =>
                  Promise_all schedule
                    (map (upsertCountry sanitizeCountry) records))
               db).
Proof.
  split; [| split].
  - intros listing H. exists (map sanitizeCountryAPI listing).
    unfold getExternalCountries, fetch, bind, ret. rewrite H.
    split; [reflexivity |]. split; [apply length_map |].
    intros k. apply nth_error_map.
  - intros e H. unfold getExternalCountries, fetch, bind, ret.
    rewrite H. reflexivity.
  - intros schedule.
    unfold upsertCountriesFromAPI, getExternalCountries, fetch, bind, ret.
    destruct (getData countriesApiService EmptyString) as [l | e];
      [| reflexivity].
    destruct (Promise_all schedule _ db) as [d [outs | e]]; reflexivity.
Qed.

(** X2. The synchronization without records, over any client and for any
    schedule: when the adapter throws, the call is rejected with that very
    value and no store call is made; when the adapter delivers an empty
    listing, the call is fulfilled with the empty array (it is not an
    error, unlike an empty [getCountries]) and no store call is made. *)
Theorem sync_without_records (schedule : list nat) (db : DB) :
  (forall e,
      getData countriesApiService EmptyString = Rejected e ->
      upsertCountriesFromAPI countriesApiService sanitizeCountryAPI
        sanitizeCountry schedule db = (db, Rejected e))
  /\ (getData countriesApiService EmptyString = Fulfilled [] ->
      upsertCountriesFromAPI countriesApiService sanitizeCountryAPI
        sanitizeCountry schedule db = (db, Fulfilled [])).
Proof.
  split.
  - intros e H. unfold upsertCountriesFromAPI, fetch, bind, ret.
    rewrite H. reflexivity.
  - intros H. unfold upsertCountriesFromAPI, fetch, bind, ret, Promise_all.
    rewrite H. simpl. rewrite settle_nothing. reflexivity.
Qed.

(** X3. [upsertCountry] has no catch block: over any client it makes the
    one call [country.upsert] keyed by the abbreviation of the record, is
    rejected exactly when that call is rejected, with the same value and in
    the same store state (a uniqueness violation [P2002] is not turned into
    [AlreadyExistsError], unlike in [createCountry]), and is fulfilled
    exactly when that call is, with the sanitized row. *)
Theorem upsertCountry_passes_store_outcome (data : CreateCountryDto)
  (db db' : DB) :
  (forall e,
      upsertCountry sanitizeCountry data db = (db', Rejected e) <->
      country_upsert (ByAbbreviation (dto_abbreviation data)) data
        (update_of_create data) db = (db', Rejected e))
  /\ (forall c,
        country_upsert (ByAbbreviation (dto_abbreviation data)) data
          (update_of_create data) db = (db', Fulfilled c) ->
        upsertCountry sanitizeCountry data db
        = (db', Fulfilled (sanitizeCountry c)))
  /\ (forall out,
        upsertCountry sanitizeCountry data db = (db', Fulfilled out) ->
        exists c,
          country_upsert (ByAbbreviation (dto_abbreviation data)) data
            (update_of_create data) db = (db', Fulfilled c)
          /\ out = sanitizeCountry c).
Proof.
  unfold upsertCountry, bind, ret.
  destruct (country_upsert _ _ _ db) as [d [c | e0]].
  - split; [| split].
    + intros e. split; intros H; discriminate H.
    + intros c0 H. inversion H. reflexivity.
    + intros out H. inversion H; subst. exists c. auto.
  - split; [| split].
    + intros e. split; intros H; inversion H; reflexivity.
    + intros c0 H. discriminate H.
    + intros out H. discriminate H.
Qed.

(** X4. The catch block of [updateCountry], over any client: a known
    request error with code [P2010] is replaced by [NotFoundError]; a known
    request error with any other code ([P2025] and [P2002] included) and
    any other thrown value are rethrown as they are; the store state is the
    one the store call left.  A [NotFoundError] therefore comes out only
    when the store call was rejected with [P2010] or with a [NotFoundError]
    of its own. *)
Theorem updateCountry_maps_only_P2010 (i : Z) (data : UpdateCountryDto)
  (db db' : DB) :
  (forall code,
      country_update (ById i) (update_of_dto data) db
        = (db', Rejected (PrismaClientKnownRequestError code)) ->
      updateCountry sanitizeCountry i data db
      = (db', Rejected (if (code =? "P2010")%string
                        then NotFoundError (msg_update_not_found i)
                        else PrismaClientKnownRequestError code)))
  /\ (forall e,
        (forall code, e <> PrismaClientKnownRequestError code) ->
        country_update (ById i) (update_of_dto data) db = (db', Rejected e) ->
        updateCountry sanitizeCountry i data db = (db', Rejected e))
  /\ (forall msg,
        updateCountry sanitizeCountry i data db
          = (db', Rejected (NotFoundError msg)) ->
        country_update (ById i) (update_of_dto data) db
          = (db', Rejected (PrismaClientKnownRequestError "P2010"))
        \/ country_update (ById i) (update_of_dto data) db
           = (db', Rejected (NotFoundError msg)))
  /\ (forall c,
        country_update (ById i) (update_of_dto data) db = (db', Fulfilled c) ->
        updateCountry sanitizeCountry i data db
        = (db', Fulfilled (sanitizeCountry c))).
Proof.
  unfold updateCountry, try_catch, bind, ret.
  destruct (country_update (ById i) (update_of_dto data) db)
    as [d [c | e0]]; simpl.
  - split; [| split; [| split]].
    + intros code H. discriminate H.
    + intros e _ H. discriminate H.
    + intros msg H. discriminate H.
    + intros c0 H. inversion H. reflexivity.
  - split; [| split; [| split]].
    + intros code H. inversion H; subst. unfold updateCountry_catch, throw.
      destruct (code =? "P2010")%string; reflexivity.
    + intros e Hne H. inversion H; subst. unfold updateCountry_catch, throw.
      destruct e as [m | m | code | m]; try reflexivity.
      exfalso. apply (Hne code). reflexivity.
    + intros msg. unfold updateCountry_catch, throw.
      destruct e0 as [m | m | code | m].
      * intros H. inversion H; subst. right. reflexivity.
      * intros H. discriminate H.
      * destruct (code =? "P2010")%string eqn:E.
        -- intros H. inversion H; subst. left.
           apply String.eqb_eq in E. subst code. reflexivity.
        -- intros H. discriminate H.
      * intros H. discriminate H.
    + intros c0 H. discriminate H.
Qed.

End OverAnyClient.

(** ** On the Prisma store *)

Section MoreOnThePrismaStore.
Context {RawCountry CountryOutputDto : Type}.
Variable countriesApiService : ExternalService RawCountry.
Variable sanitizeCountryAPI : RawCountry -> CreateCountryDto.
Variable sanitizeCountry : Country -> CountryOutputDto.

Lemma same_row_written (db : Database) (c : Country) :
  consistent db -> In c (countries db) ->
  {| countries := replace_row c (countries db);
     visits := visits db;
     nextCountryId := nextCountryId db |} = db.
Proof.
  intros [Hid _] Hin. rewrite (replace_row_same c (countries db) Hid Hin).
  destruct db; reflexivity.
Qed.



(** X6. An update without any field is a read by id that does not look at
    the [deleted] flag: for every Country of the store it is fulfilled with
    the sanitized row and leaves the store as it is, also when the Country
    is soft-deleted and [getCountry] of the same id is rejected with
    [NotFoundError]. *)
Theorem update_without_fields_reads_row (db : Database) (c : Country) :
  consistent db -> In c (countries db) ->
  updateCountry sanitizeCountry (id c) no_change db
  = (db, Fulfilled (sanitizeCountry c))
  /\ (deleted c = true ->
      getCountry sanitizeCountry (id c) db
      = (db, Rejected (NotFoundError (msg_get_not_found (id c))))).
Proof.
  intros Hc Hin.
  assert (Hsame : apply_update (update_of_dto no_change) c = c)
    by (destruct c; reflexivity).
  split.
  - run_service.
    rewrite (update_row db c (update_of_dto no_change) Hc Hin).
    + rewrite Hsame. rewrite (same_row_written db c Hc Hin). reflexivity.
    + rewrite Hsame. apply others_keep_clear; assumption.
  - intros D. rewrite (getCountry_run sanitizeCountry db (id c) Hc).
    rewrite (find_by_id db c Hc Hin), D. reflexivity.
Qed.

(** X7. [createCountry] on a consistent store.  When no Country, alive or
    soft-deleted, holds the name or the abbreviation of the record, the
    call is fulfilled with the sanitized new row: the row is added after
    the existing ones, has an id no stored Country has, the fields of the
    record and [deleted = false]; the existing rows and the Visits are
    untouched.  When some Country holds the name or the abbreviation, even
    a soft-deleted one that [getCountry] no longer finds, the call is
    rejected with [AlreadyExistsError] and nothing changes. *)
Theorem createCountry_fresh_or_exists (db : Database)
  (data : CreateCountryDto) :
  consistent db ->
  let c := new_row (nextCountryId db) data in
  ((forall o, In o (countries db) ->
      name o <> dto_name data /\ abbreviation o <> dto_abbreviation data) ->
   exists db',
     createCountry sanitizeCountry data db
     = (db', Fulfilled (sanitizeCountry c))
     /\ countries db' = countries db ++ [c]
     /\ visits db' = visits db
     /\ (forall o, In o (countries db) -> id o <> id c)
     /\ name c = dto_name data /\ abbreviation c = dto_abbreviation data
     /\ details c = dto_details data /\ deleted c = false
     /\ consistent db')
  /\ (forall o, In o (countries db) ->
        name o = dto_name data \/ abbreviation o = dto_abbreviation data ->
        createCountry sanitizeCountry data db
        = (db, Rejected (AlreadyExistsError (msg_already_exists data)))
        /\ (deleted o = true ->
            getCountry sanitizeCountry (id o) db
            = (db, Rejected (NotFoundError (msg_get_not_found (id o)))))).
Proof.
  intros Hc c. split.
  - intros Hfree.
    assert (T : taken (dto_name data) (dto_abbreviation data) (countries db)
                = false) by (apply taken_false; exact Hfree).
    rewrite createCountry_run, T. eexists. split; [reflexivity |].
    simpl. split; [reflexivity |]. split; [reflexivity |].
    split.
    { intros o Ho. destruct Hc as [_ [_ [_ Hlt]]].
      rewrite Forall_forall in Hlt. specialize (Hlt o Ho). lia. }
    do 4 (split; [reflexivity |]).
    apply (create_consistent data db _ (Fulfilled c) Hc).
    unfold prisma_country_create. rewrite T. reflexivity.
  - intros o Ho Hsame.
    assert (T : taken (dto_name data) (dto_abbreviation data) (countries db)
                = true) by (apply taken_true; exists o; auto).
    rewrite createCountry_run, T. split; [reflexivity |].
    intros D. rewrite (getCountry_run sanitizeCountry db (id o) Hc).
    rewrite (find_by_id db o Hc Ho), D. reflexivity.
Qed.

Lemma alive_snoc (db : Database) (c : Country) (vs : list Visit) (n : Z) :
  deleted c = false ->
  alive {| countries := countries db ++ [c]; visits := vs;
           nextCountryId := n |}
  = alive db ++ [c].
Proof.
  intros D. unfold alive. simpl. rewrite filter_app. simpl. rewrite D.
  reflexivity.
Qed.

(** X8. Create, then read.  After a fulfilled [createCountry] on a
    consistent store, [getCountry] of the id the store assigned is
    fulfilled with the very output the create returned, and
    [getCountries] is fulfilled with the outputs it would have listed
    before followed by that output. *)
Theorem create_then_read (db db' : Database) (data : CreateCountryDto)
  (out : CountryOutputDto) :
  consistent db ->
  createCountry sanitizeCountry data db = (db', Fulfilled out) ->
  getCountry sanitizeCountry (nextCountryId db) db' = (db', Fulfilled out)
  /\ getCountries sanitizeCountry db'
     = (db', Fulfilled (map sanitizeCountry (alive db) ++ [out])).
Proof.
  intros Hc H.
  pose proof (createCountry_consistent sanitizeCountry db db' data _ Hc H)
    as Hc'.
  rewrite createCountry_run in H.
  destruct (taken _ _ _); [discriminate H |].
  inversion H; subst. clear H.
  set (c := new_row (nextCountryId db) data) in *.
  split.
  - rewrite (getCountry_run sanitizeCountry _ _ Hc').
    assert (Hin : In c (countries db ++ [c]))
      by (apply in_or_app; right; left; reflexivity).
    pose proof (find_by_id _ c Hc' Hin) as F. simpl in F. simpl.
    rewrite F. reflexivity.
  - rewrite getCountries_run. rewrite alive_snoc by reflexivity.
    rewrite map_app. simpl.
    destruct (alive db ++ [c]) eqn:E; [| reflexivity].
    apply app_eq_nil in E. destruct E as [_ E]. discriminate E.
Qed.

Lemma soft_deleted_again (db : Database) (c : Country) :
  consistent db -> In c (countries db) ->
  soft_deleted (apply_update mark_deleted c) (soft_deleted c db)
  = soft_deleted c db.
Proof.
  intros Hc Hin.
  assert (Hsame : apply_update mark_deleted (apply_update mark_deleted c)
                  = apply_update mark_deleted c) by reflexivity.
  unfold soft_deleted at 1. rewrite Hsame.
  unfold soft_deleted. simpl. f_equal.
  - apply replace_row_same.
    + rewrite map_id_replace_row. destruct Hc as [Hid _]. exact Hid.
    + apply In_replace_row. left. split; [reflexivity | exists c; auto].
  - rewrite map_map. apply map_ext. intros v.
    destruct (Z.eqb_spec (countryId v) (id c)) as [E | E]; simpl.
    + apply Z.eqb_eq in E. rewrite E. destruct v; reflexivity.
    + apply Z.eqb_neq in E. rewrite E. reflexivity.
Qed.

(** X9. A soft delete can be repeated.  On a consistent store, a second
    soft delete of the same Country is not rejected: it is fulfilled with
    the same output as the first and leaves the store exactly as the first
    left it. *)
Theorem soft_delete_twice (db : Database) (c : Country)
  (hard1 hard2 : option bool) :
  consistent db -> In c (countries db) ->
  hard1 = None \/ hard1 = Some false ->
  hard2 = None \/ hard2 = Some false ->
  exists db' out,
    deleteCountry sanitizeCountry (id c) hard1 db = (db', Fulfilled out)
    /\ deleteCountry sanitizeCountry (id c) hard2 db' = (db', Fulfilled out).
Proof.
  intros Hc Hin H1 H2.
  exists (soft_deleted c db),
         (sanitizeCountry (apply_update mark_deleted c)).
  split; [apply soft_delete_run; assumption |].
  pose proof (soft_delete_run sanitizeCountry (soft_deleted c db)
                (apply_update mark_deleted c) hard2
                (soft_deleted_consistent db c Hc Hin)
                (In_soft_deleted db c Hin) H2) as R.
  rewrite (soft_deleted_again db c Hc Hin) in R. exact R.
Qed.

(** X10. After a hard delete the id is gone for every method.  On a
    consistent store, once [deleteCountry(id, true)] has removed a Country,
    [getCountry] of that id is rejected with [NotFoundError], while
    [updateCountry] (any payload) and [deleteCountry] (either mode) of that
    id are rejected with the store's raw [P2025] and change nothing. *)
Theorem nothing_left_after_hard_delete (db : Database) (c : Country) :
  consistent db -> In c (countries db) ->
  exists db',
    deleteCountry sanitizeCountry (id c) (Some true) db
    = (db', Fulfilled (sanitizeCountry c))
    /\ getCountry sanitizeCountry (id c) db'
       = (db', Rejected (NotFoundError (msg_get_not_found (id c))))
    /\ (forall data,
          updateCountry sanitizeCountry (id c) data db'
          = (db', Rejected P2025))
    /\ (forall hard,
          deleteCountry sanitizeCountry (id c) hard db'
          = (db', Rejected P2025)).
Proof.
  intros Hc Hin. exists (hard_deleted c db).
  pose proof (hard_delete_run sanitizeCountry db c Hc Hin) as R.
  pose proof (deleteCountry_consistent sanitizeCountry _ _ _ _ _ Hc R) as Hc'.
  assert (Hab : forall o, In o (countries (hard_deleted c db)) ->
                  id o <> id c).
  { simpl. intros o Ho. apply In_other_rows in Ho. tauto. }
  split; [exact R |]. split; [| split].
  - rewrite (getCountry_run sanitizeCountry _ _ Hc').
    rewrite (proj2 (find_by_id_None _ _) Hab). reflexivity.
  - intros data. apply updateCountry_absent. exact Hab.
  - intros hard. run_service. destruct hard as [[|] |].
    + rewrite (absent_delete _ _ Hab). reflexivity.
    + rewrite (absent_update _ _ _ Hab). reflexivity.
    + rewrite (absent_update _ _ _ Hab). reflexivity.
Qed.

(** X11. The two reads agree.  On a consistent store: an output of
    [getCountry] is an element of what [getCountries] yields; every element
    of what [getCountries] yields is the output of [getCountry] for the id
    of its row; and when [getCountries] is rejected (no Country alive),
    [getCountry] is rejected with [NotFoundError] for every id. *)
Theorem reads_agree (db : Database) :
  consistent db ->
  (forall i out,
      getCountry sanitizeCountry i db = (db, Fulfilled out) ->
      exists outs,
        getCountries sanitizeCountry db = (db, Fulfilled outs)
        /\ In out outs)
  /\ (forall outs,
        getCountries sanitizeCountry db = (db, Fulfilled outs) ->
        outs = map sanitizeCountry (alive db)
        /\ forall c, In c (alive db) ->
             getCountry sanitizeCountry (id c) db
             = (db, Fulfilled (sanitizeCountry c)))
  /\ (forall e i,
        getCountries sanitizeCountry db = (db, Rejected e) ->
        getCountry sanitizeCountry i db
        = (db, Rejected (NotFoundError (msg_get_not_found i)))).
Proof.
  intros Hc. split; [| split].
  - intros i out H. rewrite (getCountry_run sanitizeCountry db i Hc) in H.
    destruct (find (unique_matches (ById i)) (countries db)) as [c |] eqn:F;
      [| discriminate H].
    destruct (deleted c) eqn:D; [discriminate H |].
    inversion H; subst. clear H.
    apply (find_key_Some id Z.eqb Z_eqb_spec') in F. destruct F as [Hin _].
    assert (Ha : In c (alive db)) by (apply In_alive; auto).
    rewrite getCountries_run.
    destruct (alive db) as [| a l] eqn:E; [contradiction |].
    exists (map sanitizeCountry (a :: l)). split; [reflexivity |].
    apply in_map. exact Ha.
  - intros outs H. rewrite getCountries_run in H.
    destruct (alive db) as [| a l] eqn:E; [discriminate H |].
    inversion H; subst. split; [reflexivity |].
    intros c Hin. rewrite <- E in Hin. apply In_alive in Hin.
    destruct Hin as [Hin D].
    rewrite (getCountry_run sanitizeCountry db (id c) Hc).
    rewrite (find_by_id db c Hc Hin), D. reflexivity.
  - intros e i H. rewrite getCountries_run in H.
    destruct (alive db) as [| a l] eqn:E; [| discriminate H].
    rewrite (getCountry_run sanitizeCountry db i Hc).
    destruct (find (unique_matches (ById i)) (countries db)) as [c |] eqn:F;
      [| reflexivity].
    destruct (deleted c) eqn:D; [reflexivity |].
    apply (find_key_Some id Z.eqb Z_eqb_spec') in F. destruct F as [Hin _].
    assert (Ha : In c (alive db)) by (apply In_alive; auto).
    rewrite E in Ha. contradiction.
Qed.

Lemma upsertCountry_touches_one_row (db db' : Database)
  (data : CreateCountryDto) (r : Settled CountryOutputDto) :
  consistent db -> upsertCountry sanitizeCountry data db = (db', r) ->
  visits db' = visits db
  /\ (forall x, abbreviation x <> dto_abbreviation data ->
        (In x (countries db') <-> In x (countries db)))
  /\ (List.length (countries db) <= List.length (countries db')
      <= S (List.length (countries db)))%nat
  /\ (forall e, r = Rejected e -> db' = db /\ e = P2002).
Proof.
  intros Hc H.
  destruct (find (unique_matches (ByAbbreviation (dto_abbreviation data)))
                 (countries db)) as [c |] eqn:F.
  - apply (find_key_Some abbreviation String.eqb string_eqb_true) in F.
    destruct F as [Hin Ea].
    rewrite (upsertCountry_updates sanitizeCountry db c data Hc Hin Ea) in H.
    destruct (name_free data db); inversion H; subst; clear H.
    + simpl. split; [reflexivity |]. split; [| split].
      * intros x Hx. rewrite In_replace_row. simpl. split.
        -- intros [[-> _] | [Hin' _]]; [| exact Hin'].
           exfalso. apply Hx. reflexivity.
        -- intros Hin'. right. split; [exact Hin' |].
           intros E. apply Hx.
           rewrite (id_unique db x c Hc Hin' Hin E). exact Ea.
      * unfold replace_row. rewrite length_map. lia.
      * intros e He. discriminate He.
    + split; [reflexivity |]. split; [tauto |]. split; [lia |].
      intros e He. inversion He. auto.
  - pose proof (proj1 (find_by_abbreviation_None _ _) F) as Hab.
    rewrite (upsertCountry_creates sanitizeCountry db data Hab) in H.
    destruct (name_free data db); inversion H; subst; clear H.
    + simpl. split; [reflexivity |]. split; [| split].
      * intros x Hx. rewrite in_app_iff. simpl. split.
        -- intros [Hin' | [<- | []]]; [exact Hin' |].
           exfalso. apply Hx. reflexivity.
        -- intros Hin'. left. exact Hin'.
      * rewrite length_app. simpl. lia.
      * intros e He. discriminate He.
    + split; [reflexivity |]. split; [tauto |]. split; [lia |].
      intros e He. inversion He. auto.
Qed.

(** X12. The frame of an upsert.  On a consistent store, whatever its
    outcome, [upsertCountry] leaves every Visit and every Country filed
    under another abbreviation exactly as they were, and adds at most one
    row; when it is rejected, the value is the store's raw [P2002] and the
    store is unchanged. *)
Theorem upsertCountry_frame (db db' : Database) (data : CreateCountryDto)
  (r : Settled CountryOutputDto) :
  consistent db -> upsertCountry sanitizeCountry data db = (db', r) ->
  visits db' = visits db
  /\ (forall x, abbreviation x <> dto_abbreviation data ->
        (In x (countries db') <-> In x (countries db)))
  /\ (List.length (countries db) <= List.length (countries db')
      <= S (List.length (countries db)))%nat
  /\ (forall e, r = Rejected e -> db' = db /\ e = P2002).
Proof. apply upsertCountry_touches_one_row. Qed.

Lemma settle_app {A : Type} (s1 s2 : list nat)
  (ps : list (Promise Database A)) (db : Database) :
  settle (s1 ++ s2) ps db
  = let (db1, log1) := settle s1 ps db in
    let (db2, log2) := settle s2 ps db1 in
    (db2, log1 ++ log2).
Proof.
  revert db. induction s1 as [| k s1 IH]; simpl; intros db.
  - destruct (settle s2 ps db); reflexivity.
  - destruct (nth_error ps k) as [p |]; [| apply IH].
    destruct (p db) as [db1 r]. rewrite IH.
    destruct (settle s1 ps db1) as [db2 log1].
    destruct (settle s2 ps db2) as [db3 log2]. reflexivity.
Qed.

Lemma settle_keeps_row (ds : list CreateCountryDto) (post : list nat) :
  forall (db db' : Database) (log : list (nat * Settled CountryOutputDto))
         (c : Country),
    consistent db -> In c (countries db) ->
    (forall j d, In j post -> nth_error ds j = Some d ->
                 dto_abbreviation d <> abbreviation c) ->
    settle post (map (upsertCountry sanitizeCountry) ds) db = (db', log) ->
    In c (countries db').
Proof.
  induction post as [| j post IH]; simpl; intros db db' log c Hc Hin Hoth H.
  - inversion H; subst. exact Hin.
  - rewrite nth_error_map in H.
    destruct (nth_error ds j) as [d |] eqn:N; simpl in H.
    + destruct (upsertCountry sanitizeCountry d db) as [db1 r] eqn:U.
      destruct (settle post _ db1) as [db2 log'] eqn:S.
      inversion H; subst. clear H.
      pose proof (upsertCountry_consistent sanitizeCountry db db1 d r Hc U)
        as Hc1.
      destruct (upsertCountry_touches_one_row db db1 d r Hc U)
        as [_ [Hframe _]].
      apply (IH db1 db' log' c Hc1).
      * apply Hframe; [| exact Hin].
        intros E. apply (Hoth j d); auto.
      * intros j' d' Hj'. apply Hoth. right. exact Hj'.
      * exact S.
    + apply (IH db db' log c Hc Hin); [| exact H].
      intros j' d' Hj'. apply Hoth. right. exact Hj'.
Qed.

(** X13. Last write wins.  On a consistent store, for any schedule: if the
    synchronization is fulfilled and, after position [k] of the listing
    took its step, no record with the same abbreviation took one, then the
    one Country stored under that abbreviation at the end holds the name
    and the details of the k-th record. *)
Theorem sync_last_write_wins (db db' : Database)
  (listing : list RawCountry) (pre post : list nat) (k : nat)
  (raw : RawCountry) (outs : list CountryOutputDto) :
  consistent db ->
  getData countriesApiService EmptyString = Fulfilled listing ->
  nth_error listing k = Some raw ->
  (forall j raw', In j post -> nth_error listing j = Some raw' ->
     dto_abbreviation (sanitizeCountryAPI raw')
     <> dto_abbreviation (sanitizeCountryAPI raw)) ->
  upsertCountriesFromAPI countriesApiService sanitizeCountryAPI
    sanitizeCountry (pre ++ k :: post) db = (db', Fulfilled outs) ->
  exists c,
    with_abbreviation (dto_abbreviation (sanitizeCountryAPI raw)) db' = [c]
    /\ name c = dto_name (sanitizeCountryAPI raw)
    /\ details c = dto_details (sanitizeCountryAPI raw).
Proof.
  intros Hc Hget Hk Hpost H.
  set (ds := map sanitizeCountryAPI listing) in *.
  destruct (settle (pre ++ k :: post)
                   (map (upsertCountry sanitizeCountry) ds) db)
    as [d log] eqn:S.
  rewrite (upsertCountriesFromAPI_run countriesApiService sanitizeCountryAPI
             sanitizeCountry _ db d listing log Hget S) in H.
  destruct (first_rejection log) as [e |] eqn:F; [discriminate H |].
  inversion H; subst d. clear H.
  pose proof (proj1 (first_rejection_None log) F) as Hnone.
  destruct (settle_upserts sanitizeCountry ds _ db db' log Hc S)
    as [Hc' _].
  rewrite settle_app in S.
  destruct (settle pre _ db) as [db1 log1] eqn:S1.
  destruct (settle_upserts sanitizeCountry ds pre db db1 log1 Hc S1)
    as [Hc1 _].
  simpl in S. rewrite nth_error_map in S. unfold ds in S at 1.
  rewrite nth_error_map, Hk in S. simpl in S.
  destruct (upsertCountry sanitizeCountry (sanitizeCountryAPI raw) db1)
    as [db2 r] eqn:U.
  destruct (settle post _ db2) as [db3 log3] eqn:S3.
  inversion S; subst. clear S.
  destruct r as [out | e];
    [| exfalso; apply (Hnone k e); apply in_or_app; right; left; reflexivity].
  pose proof (upsertCountry_consistent sanitizeCountry db1 db2 _ _ Hc1 U)
    as Hc2.
  destruct (upsertCountry_fulfilled sanitizeCountry db1 db2 _ out Hc1 U)
    as [c1 [_ [Hin1 [Ea [En [Ed _]]]]]].
  exists c1. split; [| auto].
  rewrite <- Ea. apply (with_abbreviation_single db' c1 Hc').
  apply (settle_keeps_row ds post db2 db' log3 c1 Hc2 Hin1); [| exact S3].
  intros j d Hj Hd. unfold ds in Hd. rewrite nth_error_map in Hd.
  destruct (nth_error listing j) as [raw' |] eqn:N; [| discriminate Hd].
  inversion Hd; subst d. rewrite Ea. apply (Hpost j raw' Hj N).
Qed.

(** X14. Every method keeps the store consistent.  From a consistent
    store, whatever the arguments, the schedule and the outcome, each
    method of the service leaves a store in which ids, names and
    abbreviations are unique; the two reads leave the store as it is. *)
Theorem service_keeps_store_consistent (db db' : Database) :
  consistent db ->
  (forall data r,
      createCountry sanitizeCountry data db = (db', r) -> consistent db')
  /\ (forall i data r,
        updateCountry sanitizeCountry i data db = (db', r) -> consistent db')
  /\ (forall i hard r,
        deleteCountry sanitizeCountry i hard db = (db', r) -> consistent db')
  /\ (forall data r,
        upsertCountry sanitizeCountry data db = (db', r) -> consistent db')
  /\ (forall schedule r,
        upsertCountriesFromAPI countriesApiService sanitizeCountryAPI
          sanitizeCountry schedule db = (db', r) ->
        consistent db')
  /\ (forall i r, getCountry sanitizeCountry i db = (db', r) -> db' = db)
  /\ (forall r, getCountries sanitizeCountry db = (db', r) -> db' = db).
Proof.
  intros Hc.
  split; [intros data r; apply createCountry_consistent; exact Hc |].
  split; [intros i data r; apply updateCountry_consistent; exact Hc |].
  split; [intros i hard r; apply deleteCountry_consistent; exact Hc |].
  split; [intros data r; apply upsertCountry_consistent; exact Hc |].
  split; [| split].
  - intros schedule r.
    unfold upsertCountriesFromAPI, fetch, bind, ret, Promise_all.
    destruct (getData countriesApiService EmptyString) as [listing | e].
    + destruct (settle schedule _ db) as [d log] eqn:S.
      destruct (settle_upserts sanitizeCountry _ schedule db d log Hc S)
        as [Hd _].
      destruct (first_rejection log); intros H; inversion H; subst; exact Hd.
    + intros H. inversion H; subst. exact Hc.
  - intros i r. apply getCountry_keeps_store.
  - intros r. apply getCountries_keeps_store.
Qed.

(** X15. Upsert, then read.  After a fulfilled [upsertCountry] on a
    consistent store, the row it answered with is stored under the
    abbreviation of the record.  When that row is not soft-deleted,
    [getCountry] of its id is fulfilled with the very output of the upsert;
    when the upsert landed on a soft-deleted Country, the row stays hidden:
    [getCountry] of its id is rejected with [NotFoundError] although the
    upsert was fulfilled.  A row the upsert created is never hidden. *)
Theorem upsert_then_read (db db' : Database) (data : CreateCountryDto)
  (out : CountryOutputDto) :
  consistent db ->
  upsertCountry sanitizeCountry data db = (db', Fulfilled out) ->
  exists c1,
    out = sanitizeCountry c1
    /\ with_abbreviation (dto_abbreviation data) db' = [c1]
    /\ (deleted c1 = false ->
        getCountry sanitizeCountry (id c1) db' = (db', Fulfilled out))
    /\ (deleted c1 = true ->
        getCountry sanitizeCountry (id c1) db'
        = (db', Rejected (NotFoundError (msg_get_not_found (id c1)))))
    /\ (deleted c1 = true <->
        exists c, In c (countries db)
                  /\ abbreviation c = dto_abbreviation data
                  /\ deleted c = true).
Proof.
  intros Hc H.
  pose proof (upsertCountry_consistent sanitizeCountry db db' data _ Hc H)
    as Hc'.
  destruct (upsertCountry_fulfilled sanitizeCountry db db' data out Hc H)
    as [c1 [-> [Hin1 [Ea [_ [_ [_ [Hupd Hnew]]]]]]]].
  exists c1. split; [reflexivity |].
  split; [rewrite <- Ea; apply with_abbreviation_single; assumption |].
  pose proof (getCountry_run sanitizeCountry db' (id c1) Hc') as G.
  rewrite (find_by_id db' c1 Hc' Hin1) in G.
  split; [intros D; rewrite D in G; exact G |].
  split; [intros D; rewrite D in G; exact G |].
  destruct (find (unique_matches (ByAbbreviation (dto_abbreviation data)))
                 (countries db)) as [c |] eqn:F.
  - apply (find_key_Some abbreviation String.eqb string_eqb_true) in F.
    destruct F as [Hin Eac].
    destruct (Hupd c Hin Eac) as [_ [D _]]. split.
    + intros D1. exists c. rewrite <- D. auto.
    + intros [c0 [Hin0 [Ea0 D0]]].
      assert (c0 = c) by (apply (abbreviation_unique db); congruence).
      subst c0. congruence.
  - pose proof (proj1 (find_by_abbreviation_None _ _) F) as Hab.
    destruct (Hnew Hab) as [_ [D _]]. split.
    + intros D1. congruence.
    + intros [c0 [Hin0 [Ea0 _]]]. exfalso. apply (Hab c0 Hin0 Ea0).
Qed.

Lemma upsertCountry_keeps_visits (db db' : Database)
  (data : CreateCountryDto) (r : Settled CountryOutputDto) :
  upsertCountry sanitizeCountry data db = (db', r) -> visits db' = visits db.
Proof.
  run_service.
  unfold prisma_country_upsert, prisma_country_update, prisma_country_create.
  destruct (find _ _) as [c |]; simpl;
    try destruct (taken _ _ _); simpl;
    intros H; inversion H; reflexivity.
Qed.

Lemma settle_upserts_keep_visits (ds : list CreateCountryDto)
  (schedule : list nat) :
  forall (db db' : Database) (log : list (nat * Settled CountryOutputDto)),
    settle schedule (map (upsertCountry sanitizeCountry) ds) db = (db', log) ->
    visits db' = visits db.
Proof.
  induction schedule as [| k rest IH]; simpl; intros db db' log H.
  - inversion H. reflexivity.
  - rewrite nth_error_map in H.
    destruct (nth_error ds k) as [d |]; simpl in H; [| apply (IH _ _ _ H)].
    destruct (upsertCountry sanitizeCountry d db) as [db1 r] eqn:U.
    destruct (settle rest _ db1) as [db2 log'] eqn:S.
    inversion H; subst.
    rewrite (IH _ _ _ S). apply (upsertCountry_keeps_visits _ _ _ _ U).
Qed.

(** X16. Only a soft delete writes to the Visits, and it only raises
    flags.  On the Prisma store, whatever the state, the arguments and the
    outcome: [createCountry], [updateCountry], [upsertCountry], the
    synchronization, a hard [deleteCountry] and the two reads leave the
    table of Visits exactly as it was; a [deleteCountry] in either mode
    keeps the number of Visits and, position by position, their id, their
    [countryId] and their details, and never lowers a [deleted] flag. *)
Theorem only_soft_delete_writes_visits (db db' : Database) :
  (forall data r,
      createCountry sanitizeCountry data db = (db', r) ->
      visits db' = visits db)
  /\ (forall i data r,
        updateCountry sanitizeCountry i data db = (db', r) ->
        visits db' = visits db)
  /\ (forall data r,
        upsertCountry sanitizeCountry data db = (db', r) ->
        visits db' = visits db)
  /\ (forall schedule r,
        upsertCountriesFromAPI countriesApiService sanitizeCountryAPI
          sanitizeCountry schedule db = (db', r) ->
        visits db' = visits db)
  /\ (forall i r,
        deleteCountry sanitizeCountry i (Some true) db = (db', r) ->
        visits db' = visits db)
  /\ (forall i hard r,
        deleteCountry sanitizeCountry i hard db = (db', r) ->
        Forall2 (fun v v' =>
                   visit_id v' = visit_id v /\ countryId v' = countryId v
                   /\ visit_details v' = visit_details v
                   /\ (visit_deleted v = true -> visit_deleted v' = true))
                (visits db) (visits db')).
Proof.
  split; [| split; [| split; [| split; [| split]]]].
  - intros data r. rewrite createCountry_run.
    destruct (taken _ _ _); intros H; inversion H; reflexivity.
  - intros i data r. run_service. unfold prisma_country_update.
    destruct (find _ _) as [c |]; simpl;
      try destruct (taken _ _ _); simpl;
      intros H; inversion H; reflexivity.
  - intros data r. apply upsertCountry_keeps_visits.
  - intros schedule r.
    unfold upsertCountriesFromAPI, fetch, bind, ret, Promise_all.
    destruct (getData countriesApiService EmptyString) as [listing | e].
    + destruct (settle schedule _ db) as [d log] eqn:S.
      pose proof (settle_upserts_keep_visits _ _ _ _ _ S) as V.
      destruct (first_rejection log); intros H; inversion H; subst; exact V.
    + intros H. inversion H. reflexivity.
  - intros i r. run_service. unfold prisma_country_delete.
    destruct (find _ _) as [c |]; simpl; intros H; inversion H; reflexivity.
  - assert (Hrefl : forall vs : list Visit,
              Forall2 (fun v v' =>
                         visit_id v' = visit_id v
                         /\ countryId v' = countryId v
                         /\ visit_details v' = visit_details v
                         /\ (visit_deleted v = true ->
                             visit_deleted v' = true)) vs vs).
    { induction vs; constructor; auto. }
    assert (Hflag : forall (i : Z) (vs : list Visit),
              Forall2 (fun v v' =>
                         visit_id v' = visit_id v
                         /\ countryId v' = countryId v
                         /\ visit_details v' = visit_details v
                         /\ (visit_deleted v = true ->
                             visit_deleted v' = true))
                vs
                (map (fun v => if visit_matches
                                    {| where_countryId := Some i |} v
                               then apply_visit_update
                                      {| set_visit_deleted := Some true |} v
                               else v) vs)).
    { intros i vs. induction vs as [| v vs IH]; simpl; constructor;
        [| exact IH].
      destruct (visit_matches _ v); simpl; auto. }
    intros i hard r. run_service.
    unfold prisma_country_delete, prisma_country_update,
      prisma_visit_updateMany.
    destruct hard as [[|] |];
      destruct (find _ _) as [c |]; simpl;
      try destruct (taken _ _ _); simpl;
      intros H; inversion H; subst; simpl;
      solve [apply Hrefl | apply Hflag].
Qed.

Lemma upsertCountry_stays_deleted (db db' : Database) (c : Country)
  (data : CreateCountryDto) (r : Settled CountryOutputDto) :
  consistent db -> In c (countries db) -> deleted c = true ->
  upsertCountry sanitizeCountry data db = (db', r) ->
  exists c', In c' (countries db') /\ id c' = id c /\ deleted c' = true.
Proof.
  intros Hc Hin D H.
  destruct (string_dec (abbreviation c) (dto_abbreviation data)) as [Ea | Ea].
  - rewrite (upsertCountry_updates sanitizeCountry db c data Hc Hin Ea) in H.
    destruct (name_free data db); inversion H; subst.
    + exists (apply_update (update_of_create data) c). simpl.
      split; [| auto].
      apply In_replace_row. left. split; [reflexivity | exists c; auto].
    + exists c. auto.
  - destruct (upsertCountry_touches_one_row db db' data r Hc H)
      as [_ [Hframe _]].
    exists c. split; [apply Hframe; assumption | auto].
Qed.

Lemma settle_stays_deleted (ds : list CreateCountryDto) (schedule : list nat) :
  forall (db db' : Database) (log : list (nat * Settled CountryOutputDto))
         (c : Country),
    consistent db -> In c (countries db) -> deleted c = true ->
    settle schedule (map (upsertCountry sanitizeCountry) ds) db = (db', log) ->
    exists c', In c' (countries db') /\ id c' = id c /\ deleted c' = true.
Proof.
  induction schedule as [| k rest IH]; simpl; intros db db' log c Hc Hin D H.
  - inversion H; subst. exists c. auto.
  - rewrite nth_error_map in H.
    destruct (nth_error ds k) as [d |]; simpl in H;
      [| apply (IH _ _ _ c Hc Hin D H)].
    destruct (upsertCountry sanitizeCountry d db) as [db1 r] eqn:U.
    destruct (settle rest _ db1) as [db2 log'] eqn:S.
    inversion H; subst. clear H.
    pose proof (upsertCountry_consistent sanitizeCountry db db1 d r Hc U)
      as Hc1.
    destruct (upsertCountry_stays_deleted db db1 c d r Hc Hin D U)
      as [c1 [Hin1 [E1 D1]]].
    destruct (IH db1 db' log' c1 Hc1 Hin1 D1 S) as [c2 [Hin2 [E2 D2]]].
    exists c2. split; [exact Hin2 |]. split; [congruence | exact D2].
Qed.

(** X17. No method brings a soft-deleted Country back.  On a consistent
    store, for a soft-deleted Country [c]: after [createCountry],
    [updateCountry], [upsertCountry], the synchronization or
    [deleteCountry], with any arguments, any schedule and any outcome,
    every stored Country with the id of [c] is still soft-deleted (the
    row is either gone, by a hard delete, or flagged). *)
Theorem no_method_undeletes (db db' : Database) (c : Country) :
  consistent db -> In c (countries db) -> deleted c = true ->
  let still_deleted :=
    forall x, In x (countries db') -> id x = id c -> deleted x = true in
  (forall data r,
      createCountry sanitizeCountry data db = (db', r) -> still_deleted)
  /\ (forall i data r,
        updateCountry sanitizeCountry i data db = (db', r) -> still_deleted)
  /\ (forall data r,
        upsertCountry sanitizeCountry data db = (db', r) -> still_deleted)
  /\ (forall schedule r,
        upsertCountriesFromAPI countriesApiService sanitizeCountryAPI
          sanitizeCountry schedule db = (db', r) ->
        still_deleted)
  /\ (forall i hard r,
        deleteCountry sanitizeCountry i hard db = (db', r) -> still_deleted).
Proof.
  intros Hc Hin D still_deleted. unfold still_deleted.
  assert (Hfrom : forall d, consistent d ->
            (exists c', In c' (countries d) /\ id c' = id c
                        /\ deleted c' = true) ->
            forall x, In x (countries d) -> id x = id c -> deleted x = true).
  { intros d Hd [c' [Hin' [E' D']]] x Hx Ex.
    rewrite (id_unique d x c' Hd Hx Hin'); [exact D' | congruence]. }
  assert (Hsame : forall x, In x (countries db) -> id x = id c ->
                            deleted x = true).
  { apply (Hfrom db Hc). exists c. auto. }
  split; [| split; [| split; [| split]]].
  - intros data r H.
    pose proof (createCountry_consistent sanitizeCountry _ _ _ _ Hc H) as Hc'.
    apply (Hfrom db' Hc'). exists c. split; [| auto].
    rewrite createCountry_run in H.
    destruct (taken _ _ _); inversion H; subst; [exact Hin |].
    simpl. apply in_or_app. left. exact Hin.
  - intros i data r H x Hx Ex.
    revert H. run_service. unfold prisma_country_update.
    destruct (find (unique_matches (ById i)) (countries db)) as [c0 |] eqn:F;
      simpl; [| intros H; inversion H; subst; apply Hsame; assumption].
    destruct (taken _ _ _); simpl; intros H; inversion H; subst;
      [apply Hsame; assumption |].
    simpl in Hx. apply In_replace_row in Hx.
    destruct Hx as [[-> [o [Ho Eo]]] | [Hx _]]; [| apply Hsame; assumption].
    simpl in Ex, Eo |- *. apply find_some in F. destruct F as [Hin0 _].
    apply (Hsame c0 Hin0 Ex).
  - intros data r H.
    pose proof (upsertCountry_consistent sanitizeCountry _ _ _ _ Hc H) as Hc'.
    apply (Hfrom db' Hc').
    apply (upsertCountry_stays_deleted db db' c data r Hc Hin D H).
  - intros schedule r.
    unfold upsertCountriesFromAPI, fetch, bind, ret, Promise_all.
    destruct (getData countriesApiService EmptyString) as [listing | e].
    + destruct (settle schedule _ db) as [d log] eqn:S.
      destruct (settle_upserts sanitizeCountry _ schedule db d log Hc S)
        as [Hd _].
      pose proof (settle_stays_deleted _ _ _ _ _ c Hc Hin D S) as Hex.
      destruct (first_rejection log); intros H; inversion H; subst;
        apply (Hfrom db' Hd Hex).
    + intros H. inversion H; subst. exact Hsame.
  - intros i hard r H x Hx Ex.
    revert H. run_service.
    unfold prisma_country_delete, prisma_country_update,
      prisma_visit_updateMany.
    destruct hard as [[|] |];
      destruct (find (unique_matches (ById i)) (countries db)) as [c0 |] eqn:F;
      simpl; try destruct (taken _ _ _); simpl;
      intros H; inversion H; subst; simpl in Hx;
      try (apply Hsame; assumption).
    + apply In_other_rows in Hx. apply Hsame; tauto.
    + apply In_replace_row in Hx.
      destruct Hx as [[-> _] | [Hx _]]; [reflexivity | apply Hsame; assumption].
    + apply In_replace_row in Hx.
      destruct Hx as [[-> _] | [Hx _]]; [reflexivity | apply Hsame; assumption].
Qed.

End MoreOnThePrismaStore.

(** ** Concrete runs of the further properties *)

Lemma getExternalCountries_sanitizes_listing_witness :
  getData Sample.api EmptyString = Fulfilled Sample.listing
  /\ getData Sample.offline EmptyString
     = Rejected (OtherError "ECONNREFUSED")
  /\ (exists outs,
        getExternalCountries Sample.api Sample.sanitizeCountryAPI Sample.db0
        = (Sample.db0, Fulfilled outs)
        /\ List.length outs = 3%nat)
  /\ getExternalCountries Sample.offline Sample.sanitizeCountryAPI Sample.db0
     = (Sample.db0, Rejected (OtherError "ECONNREFUSED")).
Proof.
  split; [reflexivity |]. split; [reflexivity |].
  destruct (getExternalCountries_sanitizes_listing Sample.api
              Sample.sanitizeCountryAPI Sample.sanitizeCountry Sample.db0)
    as [H1 _].
  destruct (getExternalCountries_sanitizes_listing Sample.offline
              Sample.sanitizeCountryAPI Sample.sanitizeCountry Sample.db0)
    as [_ [H2 _]].
  split.
  - destruct (H1 Sample.listing eq_refl) as [outs [E [L _]]].
    exists outs. split; [exact E | exact L].
  - apply H2. reflexivity.
Defined.

Lemma sync_without_records_witness :
  getData Sample.offline EmptyString = Rejected (OtherError "ECONNREFUSED")
  /\ getData Sample.silent EmptyString = Fulfilled []
  /\ upsertCountriesFromAPI Sample.offline Sample.sanitizeCountryAPI
       Sample.sanitizeCountry [0; 1]%nat Sample.db0
     = (Sample.db0, Rejected (OtherError "ECONNREFUSED"))
  /\ upsertCountriesFromAPI Sample.silent Sample.sanitizeCountryAPI
       Sample.sanitizeCountry [0; 1]%nat Sample.db0
     = (Sample.db0, Fulfilled []).
Proof.
  split; [reflexivity |]. split; [reflexivity |]. split.
  - apply (proj1 (sync_without_records Sample.offline
                    Sample.sanitizeCountryAPI Sample.sanitizeCountry
                    [0; 1]%nat Sample.db0)).
    reflexivity.
  - apply (proj2 (sync_without_records Sample.silent
                    Sample.sanitizeCountryAPI Sample.sanitizeCountry
                    [0; 1]%nat Sample.db0)).
    reflexivity.
Defined.

Lemma upsertCountry_passes_store_outcome_witness :
  country_upsert (ByAbbreviation "ITA") Sample.italia_dto
    (update_of_create Sample.italia_dto) Sample.db0_italy
  = (Sample.db0_italy, Rejected P2002)
  /\ upsertCountry Sample.sanitizeCountry Sample.italia_dto Sample.db0_italy
     = (Sample.db0_italy, Rejected P2002).
Proof.
  split; [reflexivity |].
  destruct (upsertCountry_passes_store_outcome Sample.sanitizeCountry
              Sample.italia_dto Sample.db0_italy Sample.db0_italy)
    as [H _].
  apply H. reflexivity.
Defined.

Lemma updateCountry_maps_only_P2010_witness :
  country_update (ById 7) (update_of_dto Sample.rename) Sample.db0
  = (Sample.db0, Rejected (PrismaClientKnownRequestError "P2025"))
  /\ updateCountry Sample.sanitizeCountry 7 Sample.rename Sample.db0
     = (Sample.db0, Rejected (PrismaClientKnownRequestError "P2025")).
Proof.
  split; [reflexivity |].
  destruct (updateCountry_maps_only_P2010 Sample.sanitizeCountry 7
              Sample.rename Sample.db0 Sample.db0) as [H _].
  apply (H "P2025"%string). reflexivity.
Defined.


Lemma update_without_fields_reads_row_witness :
  consistent Sample.db1 /\ In Sample.france_gone (countries Sample.db1)
  /\ updateCountry Sample.sanitizeCountry 2 no_change Sample.db1
     = (Sample.db1, Fulfilled (Sample.sanitizeCountry Sample.france_gone))
  /\ getCountry Sample.sanitizeCountry 2 Sample.db1
     = (Sample.db1, Rejected (NotFoundError (msg_get_not_found 2))).
Proof.
  assert (Hc : consistent Sample.db1) by sample_consistent.
  assert (Hin : In Sample.france_gone (countries Sample.db1))
    by (right; left; reflexivity).
  split; [exact Hc |]. split; [exact Hin |].
  destruct (update_without_fields_reads_row Sample.sanitizeCountry Sample.db1
              Sample.france_gone Hc Hin) as [H1 H2].
  split; [exact H1 | apply H2; reflexivity].
Defined.

Lemma createCountry_fresh_or_exists_witness :
  consistent Sample.db1
  /\ (exists db',
        createCountry Sample.sanitizeCountry Sample.italy_dto Sample.db1
        = (db', Fulfilled (Sample.sanitizeCountry Sample.italy))
        /\ countries db' = countries Sample.db1 ++ [Sample.italy])
  /\ createCountry Sample.sanitizeCountry Sample.france_dto Sample.db1
     = (Sample.db1,
        Rejected (AlreadyExistsError (msg_already_exists Sample.france_dto)))
  /\ getCountry Sample.sanitizeCountry 2 Sample.db1
     = (Sample.db1, Rejected (NotFoundError (msg_get_not_found 2))).
Proof.
  assert (Hc : consistent Sample.db1) by sample_consistent.
  split; [exact Hc |].
  destruct (createCountry_fresh_or_exists Sample.sanitizeCountry Sample.db1
              Sample.italy_dto Hc) as [H1 _].
  destruct (createCountry_fresh_or_exists Sample.sanitizeCountry Sample.db1
              Sample.france_dto Hc) as [_ H2].
  split.
  - destruct H1 as [db' [E [R _]]].
    + simpl. intros o [<- | [<- | []]]; split; discriminate.
    + exists db'. split; [exact E | exact R].
  - destruct (H2 Sample.france_gone) as [E G].
    + right. left. reflexivity.
    + left. reflexivity.
    + split; [exact E | apply G; reflexivity].
Defined.

Lemma create_then_read_witness :
  consistent Sample.db0
  /\ createCountry Sample.sanitizeCountry Sample.italy_dto Sample.db0
     = (Sample.db0_italy, Fulfilled (Sample.sanitizeCountry Sample.italy))
  /\ getCountry Sample.sanitizeCountry 3 Sample.db0_italy
     = (Sample.db0_italy, Fulfilled (Sample.sanitizeCountry Sample.italy))
  /\ getCountries Sample.sanitizeCountry Sample.db0_italy
     = (Sample.db0_italy,
        Fulfilled [Sample.sanitizeCountry Sample.spain;
                   Sample.sanitizeCountry Sample.france;
                   Sample.sanitizeCountry Sample.italy]).
Proof.
  assert (Hc : consistent Sample.db0) by sample_consistent.
  split; [exact Hc |]. split; [reflexivity |].
  destruct (create_then_read Sample.sanitizeCountry Sample.db0
              Sample.db0_italy Sample.italy_dto
              (Sample.sanitizeCountry Sample.italy) Hc eq_refl) as [H1 H2].
  split; [exact H1 | exact H2].
Defined.

Lemma soft_delete_twice_witness :
  consistent Sample.db0 /\ In Sample.spain (countries Sample.db0)
  /\ exists db' out,
       deleteCountry Sample.sanitizeCountry 1 None Sample.db0
       = (db', Fulfilled out)
       /\ deleteCountry Sample.sanitizeCountry 1 (Some false) db'
          = (db', Fulfilled out).
Proof.
  assert (Hc : consistent Sample.db0) by sample_consistent.
  assert (Hin : In Sample.spain (countries Sample.db0))
    by (left; reflexivity).
  split; [exact Hc |]. split; [exact Hin |].
  apply (soft_delete_twice Sample.sanitizeCountry Sample.db0 Sample.spain
           None (Some false) Hc Hin (or_introl eq_refl) (or_intror eq_refl)).
Defined.

Lemma nothing_left_after_hard_delete_witness :
  consistent Sample.db0 /\ In Sample.spain (countries Sample.db0)
  /\ exists db',
       deleteCountry Sample.sanitizeCountry 1 (Some true) Sample.db0
       = (db', Fulfilled (Sample.sanitizeCountry Sample.spain))
       /\ getCountry Sample.sanitizeCountry 1 db'
          = (db', Rejected (NotFoundError (msg_get_not_found 1)))
       /\ updateCountry Sample.sanitizeCountry 1 Sample.rename db'
          = (db', Rejected P2025)
       /\ deleteCountry Sample.sanitizeCountry 1 None db'
          = (db', Rejected P2025).
Proof.
  assert (Hc : consistent Sample.db0) by sample_consistent.
  assert (Hin : In Sample.spain (countries Sample.db0))
    by (left; reflexivity).
  split; [exact Hc |]. split; [exact Hin |].
  destruct (nothing_left_after_hard_delete Sample.sanitizeCountry Sample.db0
              Sample.spain Hc Hin) as [db' [H1 [H2 [H3 H4]]]].
  exists db'. split; [exact H1 |]. split; [exact H2 |].
  split; [apply H3 | apply H4].
Defined.

Lemma reads_agree_witness :
  consistent Sample.db1
  /\ getCountry Sample.sanitizeCountry 1 Sample.db1
     = (Sample.db1, Fulfilled (Sample.sanitizeCountry Sample.spain))
  /\ exists outs,
       getCountries Sample.sanitizeCountry Sample.db1
       = (Sample.db1, Fulfilled outs)
       /\ In (Sample.sanitizeCountry Sample.spain) outs.
Proof.
  assert (Hc : consistent Sample.db1) by sample_consistent.
  split; [exact Hc |]. split; [reflexivity |].
  destruct (reads_agree Sample.sanitizeCountry Sample.db1 Hc) as [H _].
  apply (H 1). reflexivity.
Defined.

Lemma upsertCountry_frame_witness :
  consistent Sample.db0
  /\ upsertCountry Sample.sanitizeCountry Sample.italy_dto Sample.db0
     = (Sample.db0_italy, Fulfilled (Sample.sanitizeCountry Sample.italy))
  /\ visits Sample.db0_italy = visits Sample.db0
  /\ (In Sample.spain (countries Sample.db0_italy)
      <-> In Sample.spain (countries Sample.db0)).
Proof.
  assert (Hc : consistent Sample.db0) by sample_consistent.
  split; [exact Hc |]. split; [reflexivity |].
  destruct (upsertCountry_frame Sample.sanitizeCountry Sample.db0
              Sample.db0_italy Sample.italy_dto _ Hc eq_refl)
    as [H1 [H2 _]].
  split; [exact H1 |]. apply H2. discriminate.
Defined.

Lemma sync_last_write_wins_witness :
  consistent Sample.db0
  /\ getData Sample.api EmptyString = Fulfilled Sample.listing
  /\ exists c,
       with_abbreviation "IT"
         (fst (upsertCountriesFromAPI Sample.api Sample.sanitizeCountryAPI
                 Sample.sanitizeCountry [2; 0; 1]%nat Sample.db0))
       = [c]
       /\ name c = "Italy"%string /\ details c = "Roma"%string.
Proof.
  assert (Hc : consistent Sample.db0) by sample_consistent.
  split; [exact Hc |]. split; [reflexivity |].
  apply (sync_last_write_wins Sample.api Sample.sanitizeCountryAPI
           Sample.sanitizeCountry Sample.db0
           (fst (upsertCountriesFromAPI Sample.api Sample.sanitizeCountryAPI
                   Sample.sanitizeCountry [2; 0; 1]%nat Sample.db0))
           Sample.listing [2]%nat [1]%nat 0%nat
           {| Sample.raw_name := "Italy"; Sample.raw_abbreviation := "IT";
              Sample.raw_capital := "Roma" |}
           (match snd (upsertCountriesFromAPI Sample.api
                         Sample.sanitizeCountryAPI Sample.sanitizeCountry
                         [2; 0; 1]%nat Sample.db0) with
            | Fulfilled outs => outs
            | Rejected _ => []
            end)
           Hc eq_refl eq_refl).
  - intros j raw' [<- | []] H. inversion H. simpl. discriminate.
  - reflexivity.
Defined.

Lemma service_keeps_store_consistent_witness :
  consistent Sample.db0
  /\ createCountry Sample.sanitizeCountry Sample.italy_dto Sample.db0
     = (Sample.db0_italy, Fulfilled (Sample.sanitizeCountry Sample.italy))
  /\ consistent Sample.db0_italy.
Proof.
  assert (Hc : consistent Sample.db0) by sample_consistent.
  split; [exact Hc |]. split; [reflexivity |].
  destruct (service_keeps_store_consistent Sample.api
              Sample.sanitizeCountryAPI Sample.sanitizeCountry Sample.db0
              Sample.db0_italy Hc) as [H _].
  apply (H Sample.italy_dto (Fulfilled (Sample.sanitizeCountry Sample.italy))).
  reflexivity.
Defined.

Lemma upsert_then_read_witness :
  consistent Sample.db1
  /\ exists db',
       upsertCountry Sample.sanitizeCountry Sample.france_dto Sample.db1
       = (db', Fulfilled (Sample.sanitizeCountry Sample.france_resynced))
       /\ getCountry Sample.sanitizeCountry 2 db'
          = (db', Rejected (NotFoundError (msg_get_not_found 2))).
Proof.
  assert (Hc : consistent Sample.db1) by sample_consistent.
  split; [exact Hc |].
  exists (fst (upsertCountry Sample.sanitizeCountry Sample.france_dto
                 Sample.db1)).
  assert (U : upsertCountry Sample.sanitizeCountry Sample.france_dto
                Sample.db1
              = (fst (upsertCountry Sample.sanitizeCountry Sample.france_dto
                        Sample.db1),
                 Fulfilled (Sample.sanitizeCountry Sample.france_resynced)))
    by reflexivity.
  split; [exact U |].
  destruct (upsert_then_read Sample.sanitizeCountry Sample.db1 _
              Sample.france_dto _ Hc U)
    as [c1 [_ [W [_ [H _]]]]].
  assert (E : c1 = Sample.france_resynced).
  { simpl in W. inversion W. reflexivity. }
  subst c1. apply H. reflexivity.
Defined.

Lemma only_soft_delete_writes_visits_witness :
  upsertCountry Sample.sanitizeCountry Sample.italy_dto Sample.db0
  = (Sample.db0_italy, Fulfilled (Sample.sanitizeCountry Sample.italy))
  /\ visits Sample.db0_italy = visits Sample.db0.
Proof.
  split; [reflexivity |].
  destruct (only_soft_delete_writes_visits Sample.api
              Sample.sanitizeCountryAPI Sample.sanitizeCountry Sample.db0
              Sample.db0_italy) as [_ [_ [H _]]].
  apply (H Sample.italy_dto (Fulfilled (Sample.sanitizeCountry Sample.italy))).
  reflexivity.
Defined.

Lemma no_method_undeletes_witness :
  consistent Sample.db1 /\ In Sample.france_gone (countries Sample.db1)
  /\ deleted Sample.france_gone = true
  /\ forall x,
       In x (countries
               (fst (upsertCountry Sample.sanitizeCountry Sample.france_dto
                       Sample.db1))) ->
       id x = 2 -> deleted x = true.
Proof.
  assert (Hc : consistent Sample.db1) by sample_consistent.
  assert (Hin : In Sample.france_gone (countries Sample.db1))
    by (right; left; reflexivity).
  split; [exact Hc |]. split; [exact Hin |]. split; [reflexivity |].
  destruct (no_method_undeletes Sample.api Sample.sanitizeCountryAPI
              Sample.sanitizeCountry Sample.db1
              (fst (upsertCountry Sample.sanitizeCountry Sample.france_dto
                      Sample.db1))
              Sample.france_gone Hc Hin eq_refl) as [_ [_ [H _]]].
  apply (H Sample.france_dto
           (snd (upsertCountry Sample.sanitizeCountry Sample.france_dto
                   Sample.db1))).
  reflexivity.
Defined.
